(** * build_html.py: heading outline and block classifier

    A shallow embedding of [extract_toc], [format_content_to_html] and
    [generate_toc_html] from [build_html.py], together with the fragments of
    the Python runtime they rely on ([str] methods, [html.escape] and the
    regular expression that recognises numbered headings).

    A Python [str] is a sequence of Unicode code points, so it is modelled as
    a list of code points; [len] is the length of that list. *)

From Stdlib Require Import NArith ZArith Ascii String Lia.
From stdpp Require Import base list gmap.
From Equations Require Import Equations.

Local Open Scope N_scope.
Set Warnings "-clear-no-such-hyp".

(** ** Python strings *)

Module Py.

Abbreviation char := N.
Abbreviation str := (list N).

(** ASCII literals. *)
Definition lit (s : string) : str :=
  List.map N_of_ascii (list_ascii_of_string s).

Definition nl : char := 10.      (* '\n' *)
Definition tab : char := 9.      (* '\t' *)
Definition space : char := 32.
Definition dquote : char := 34.
Definition amp : char := 38.
Definition squote : char := 39.
Definition rparen : char := 41.
Definition hyphen : char := 45.
Definition dot : char := 46.
Definition lt_sign : char := 60.
Definition gt_sign : char := 62.
Definition backtick : char := 96.
Definition lbrace : char := 123.
Definition rbrace : char := 125.

Definition in_ranges (c : char) (rs : list (N * N)) : bool :=
  existsb (fun r => (fst r <=? c) && (c <=? snd r)) rs.

(** [Py_UNICODE_ISSPACE]: the characters removed by [str.strip()] and matched
    by [\s] in a [str] pattern. *)
Definition whitespace_ranges : list (N * N) :=
  [ (0x09, 0x0D); (0x1C, 0x20); (0x85, 0x85); (0xA0, 0xA0); (0x1680, 0x1680);
    (0x2000, 0x200A); (0x2028, 0x2029); (0x202F, 0x202F); (0x205F, 0x205F);
    (0x3000, 0x3000) ].

Definition is_space (c : char) : bool := in_ranges c whitespace_ranges.

(** [Py_UNICODE_ISDECIMAL]: the characters matched by [\d] in a [str]
    pattern, that is general category Nd (Unicode 14.0, the table of
    CPython 3.11).  Every block is a run of ten digits starting at the given
    code point, except the mathematical digits at U+1D7CE, five runs in a row. *)
Definition decimal_zeros : list N :=
  [ 0x30; 0x660; 0x6F0; 0x7C0; 0x966; 0x9E6; 0xA66; 0xAE6; 0xB66; 0xBE6;
    0xC66; 0xCE6; 0xD66; 0xDE6; 0xE50; 0xED0; 0xF20; 0x1040; 0x1090; 0x17E0;
    0x1810; 0x1946; 0x19D0; 0x1A80; 0x1A90; 0x1B50; 0x1BB0; 0x1C40; 0x1C50;
    0xA620; 0xA8D0; 0xA900; 0xA9D0; 0xA9F0; 0xAA50; 0xABF0; 0xFF10; 0x104A0;
    0x10D30; 0x11066; 0x110F0; 0x11136; 0x111D0; 0x112F0; 0x11450; 0x114D0;
    0x11650; 0x116C0; 0x11730; 0x118E0; 0x11950; 0x11C50; 0x11D50; 0x11DA0;
    0x16A60; 0x16AC0; 0x16B50;
    0x1D7CE; 0x1D7D8; 0x1D7E2; 0x1D7EC; 0x1D7F6;
    0x1E140; 0x1E2F0; 0x1E950; 0x1FBF0 ].

Definition is_decimal (c : char) : bool :=
  in_ranges c (List.map (fun z => (z, z + 9)) decimal_zeros).

(** [s.startswith(p)] *)
Fixpoint startswith (p s : str) : bool :=
  match p, s with
  | [], _ => true
  | _ :: _, [] => false
  | a :: p', b :: s' => (a =? b) && startswith p' s'
  end.

(** [p in s] for strings: [p] occurs as a substring of [s]. *)
Fixpoint contains (p s : str) : bool :=
  startswith p s || match s with [] => false | _ :: s' => contains p s' end.

(** [s.lstrip()], [s.rstrip()], [s.strip()] without arguments. *)
Fixpoint lstrip (s : str) : str :=
  match s with
  | c :: s' => if is_space c then lstrip s' else s
  | [] => []
  end.

Definition rstrip (s : str) : str := rev (lstrip (rev s)).

Definition strip (s : str) : str := rstrip (lstrip s).

(** [s.count(c)] for a one-character [c]. *)
Definition count (c : char) (s : str) : Z :=
  Z.of_nat (length (List.filter (N.eqb c) s)).

(** [s.split(c)] for a one-character separator: never empty, one more field
    than there are separators. *)
Fixpoint split (c : char) (s : str) : list str :=
  match s with
  | [] => [[]]
  | x :: s' =>
      if x =? c then [] :: split c s'
      else match split c s' with
           | f :: fs => (x :: f) :: fs
           | [] => [[x]]
           end
  end.

(** [sep.join(parts)] *)
Fixpoint join (sep : str) (parts : list str) : str :=
  match parts with
  | [] => []
  | [p] => p
  | p :: ps => p ++ sep ++ join sep ps
  end.

(** [s.replace(c, r)] for a one-character [c]: every occurrence of [c] is
    replaced, left to right. *)
Definition replace (c : char) (r : str) (s : str) : str :=
  flat_map (fun x => if x =? c then r else [x]) s.

(** [str(n)] for a non-negative integer, as used by the f-strings. *)
Definition digit_char (d : N) : char := 48 + d.

Fixpoint str_of_pos_aux (fuel : nat) (n : N) (acc : str) : str :=
  match fuel with
  | O => acc
  | S fuel' =>
      let acc' := digit_char (n mod 10) :: acc in
      if n / 10 =? 0 then acc' else str_of_pos_aux fuel' (n / 10) acc'
  end.

Definition str_of_nat (n : nat) : str :=
  str_of_pos_aux (S n) (N.of_nat n) [].

Definition str_of_int (z : Z) : str :=
  if (z <? 0)%Z then hyphen :: str_of_nat (Z.to_nat (- z))
  else str_of_nat (Z.to_nat z).

(** [html.escape(s)] with its default [quote=True]: five replacements in a
    row, the ampersand first. *)
Definition escape (s : str) : str :=
  let s := replace amp (lit "&amp;") s in
  let s := replace lt_sign (lit "&lt;") s in
  let s := replace gt_sign (lit "&gt;") s in
  let s := replace dquote (lit "&quot;") s in
  let s := replace squote (lit "&#x27;") s in
  s.

End Py.
Import Py.

(** ** The heading pattern [^(\d+(?:\.\d+){0,2})\.\s+(.+)$]

    [re.match] is a backtracking matcher: alternatives are tried in priority
    order and the first complete match wins.  Each construct of the pattern is
    a function from the continuation (the rest of the pattern, run on the rest
    of the input) to a matcher. *)

Module Re.

Section Combinators.
Context {R : Type}.
Abbreviation cont := (str -> option R).

(** One character of class [p]. *)
Definition one (p : char -> bool) (k : cont) : cont :=
  fun s => match s with
           | c :: s' => if p c then k s' else None
           | [] => None
           end.

(** Greedy [X+] for a one-character class: the longest run first, then
    shorter ones. *)
Fixpoint plus (p : char -> bool) (k : cont) (s : str) : option R :=
  match s with
  | c :: s' =>
      if p c then
        match plus p k s' with
        | Some r => Some r
        | None => k s'
        end
      else None
  | [] => None
  end.

(** Greedy [(?:X){0,2}]: two repetitions, else one, else none. *)
Definition upto2 (x : cont -> cont) (k : cont) : cont :=
  fun s =>
    match x (fun s1 => match x k s1 with Some r => Some r | None => k s1 end) s with
    | Some r => Some r
    | None => k s
    end.
End Combinators.

(** [$] without [re.MULTILINE]: at the end of the string, or just before a
    newline that ends it. *)
Definition at_end (s : str) : bool :=
  match s with
  | [] => true
  | [c] => c =? nl
  | _ => false
  end.

(** [.] without [re.DOTALL] *)
Definition any_char (c : char) : bool := negb (c =? nl).

(** The text between two positions, each given by the input that is left. *)
Definition between (from to : str) : str :=
  take (length from - length to) from.

(** The pattern after group 1, [\.\s+(.+)$], run on [r1], what is left of the
    input [s] after the number; at the end both groups are known. *)
Definition after_number (s r1 : str) : option (str * str) :=
  one (N.eqb dot)
    (plus is_space (fun r2 =>
       plus any_char (fun r3 =>
         if at_end r3 then Some (between s r1, between r2 r3) else None) r2))
    r1.

(** [\.\d+] *)
Definition dot_digits {R} (k : str -> option R) : str -> option R :=
  one (N.eqb dot) (plus is_decimal k).

(** [re.match(r'^(\d+(?:\.\d+){0,2})\.\s+(.+)$', s)]: [Some (group(1),
    group(2))], or [None] when there is no match. *)
Definition heading_re (s : str) : option (str * str) :=
  plus is_decimal (upto2 dot_digits (after_number s)) s.

End Re.
Import Re.

(** ** Configuration shared by the two passes *)

(** [skip_keywords], the same list in [extract_toc] and in
    [format_content_to_html]. *)
Definition skip_keywords : list str :=
  [ [0x7528; 0x6237; 0x8BBF; 0x95EE];                        (* 用户访问 *)
    [0x54CD; 0x5E94; 0x65F6; 0x95F4];                        (* 响应时间 *)
    [0x4A; 0x56; 0x4D; 0x20; 0x5DF2];                        (* JVM 已 *)
    lit "Nginx";
    [0x50; 0x48; 0x50; 0x20; 0x89E3; 0x91CA; 0x5668];        (* PHP 解释器 *)
    [0x542F; 0x52A8; 0x20; 0x50; 0x48; 0x50];                (* 启动 PHP *)
    [0x6536; 0x5230; 0x8BF7; 0x6C42];                        (* 收到请求 *)
    [0x76F4; 0x63A5; 0x8C03; 0x7528];                        (* 直接调用 *)
    [0x53EF; 0x80FD; 0x521B; 0x5EFA];                        (* 可能创建 *)
    [0x91CD; 0x65B0; 0x89E3; 0x91CA];                        (* 重新解释 *)
    [0x7D2F; 0x79EF; 0x4F7F; 0x7528] ].                      (* 累积使用 *)

(** [any(kw in title for kw in skip_keywords)] *)
Definition has_skip_keyword (title : str) : bool :=
  existsb (fun kw => contains kw title) skip_keywords.

(** [tuple([f'{i})' for i in range(10)])] *)
Definition enum_prefixes : list str :=
  List.map (fun i => str_of_nat i ++ [rparen]) (seq 0 10).

(** [content.split('\n')] *)
Definition split_lines (content : str) : list str := split nl content.

(** ** [extract_toc] *)

Record toc_entry := TocEntry {
  id : str;
  number : str;
  title : str;
  level : nat
}.

(** The two accumulators of the loop: the list [toc] and the set [toc_ids]. *)
Record toc_state := TocState {
  toc : list toc_entry;
  toc_ids : gset str
}.

(** The conjuncts of [is_valid] that depend on the line alone. *)
Definition title_ok (title : str) : bool :=
  (4 <=? length title)%nat && negb (has_skip_keyword title).

Definition line_ok (stripped title : str) : bool :=
  title_ok title
  && negb (startswith (lit "http") title)
  && negb (existsb (fun p => startswith p stripped) enum_prefixes).

(** [f"h-{number.replace('.', '-')}"] *)
Definition toc_id (number : str) : str :=
  lit "h-" ++ replace dot (lit "-") number.

(** One iteration of [for line in lines]. *)
Definition toc_line (st : toc_state) (line : str) : toc_state :=
  match heading_re (strip line) with
  | Some (number, group2) =>
      let title := strip group2 in
      let is_valid :=
        line_ok (strip line) title && negb (bool_decide (number ∈ toc_ids st)) in
      if is_valid then
        let level := length (split dot number) in
        {| toc := toc st ++ [ {| id := toc_id number; number := number;
                                 title := title; level := level |} ];
           toc_ids := {[ number ]} ∪ toc_ids st |}
      else st
  | None => st
  end.

Definition toc_loop (st : toc_state) (lines : list str) : toc_state :=
  foldl toc_line st lines.

(** [toc = []] and [toc_ids = set()] *)
Definition toc_initial : toc_state := {| toc := []; toc_ids := ∅ |}.

Definition extract_toc (content : str) : list toc_entry :=
  toc (toc_loop toc_initial (split_lines content)).

(** ** [format_content_to_html] *)

(** The variables that live across iterations of the [while] loop.
    ([brace_count] is assigned afresh in the only branch that reads it, so it
    carries nothing from one iteration to the next.) *)
Record state := State {
  in_code_block : bool;
  code_lines : list str;
  html : list str
}.

Definition emit (st : state) (fragment : str) : state :=
  {| in_code_block := in_code_block st;
     code_lines := code_lines st;
     html := html st ++ [fragment] |}.

(** ['<pre><code>' + escape(text) + '</code></pre>'] *)
Definition pre_fragment (text : str) : str :=
  lit "<pre><code>" ++ escape text ++ lit "</code></pre>".

(** [f'<p>{escape(line)}</p>'] *)
Definition p_fragment (line : str) : str :=
  lit "<p>" ++ escape line ++ lit "</p>".

(** ['<div class="gap"></div>'] *)
Definition gap_fragment : str :=
  lit "<div class=" ++ [dquote] ++ lit "gap" ++ [dquote] ++ lit "></div>".

(** [f'<{h_tag} id="h-{number.replace(".", "-")}" class="heading level-{level}">{escape(stripped)}</{h_tag}>']
    with [h_tag = f"h{level + 1}"]. *)
Definition heading_fragment (level : nat) (number stripped : str) : str :=
  let h_tag := lit "h" ++ str_of_nat (level + 1) in
  lit "<" ++ h_tag ++ lit " id=" ++ [dquote]
    ++ lit "h-" ++ replace dot (lit "-") number ++ [dquote]
    ++ lit " class=" ++ [dquote] ++ lit "heading level-" ++ str_of_nat level
    ++ [dquote] ++ lit ">" ++ escape stripped ++ lit "</" ++ h_tag ++ lit ">".

Definition java_keywords : list str :=
  [ lit "class "; lit "public "; lit "private "; lit "protected "; lit "@";
    lit "import "; lit "package "; lit "interface " ].

(** [line.count('{') - line.count('}')] *)
Definition brace_delta (line : str) : Z :=
  (count lbrace line - count rbrace line)%Z.

(** [s and s[0] == c] and [s and s[-1] == c], as truth values. *)
Definition first_is (c : char) (s : str) : bool :=
  match s with x :: _ => x =? c | [] => false end.

Definition last_is (c : char) (s : str) : bool :=
  match last s with Some x => x =? c | None => false end.

Definition is_fence (line : str) : bool :=
  startswith (lit "```") (strip line).

Definition is_code_start (stripped : str) : bool :=
  existsb (fun kw => startswith kw stripped) java_keywords
  || first_is lbrace stripped || last_is lbrace stripped.

Definition is_indented (line : str) : bool :=
  startswith (lit "    ") line || startswith [tab] line.

Definition is_blank (line : str) : bool :=
  match strip line with [] => true | _ => false end.

(** [while i < len(lines) and brace_count > 0]: the lines appended to
    [code_block], the final [brace_count] and the lines left. *)
Fixpoint collect_braces (brace_count : Z) (rest : list str)
  : list str * Z * list str :=
  match rest with
  | l :: rest' =>
      if (0 <? brace_count)%Z then
        let '(more, bc, after) :=
          collect_braces (brace_count + brace_delta l) rest' in
        (l :: more, bc, after)
      else ([], brace_count, rest)
  | [] => ([], brace_count, [])
  end.

(** The brace branch up to its final test: [code_block], [brace_count] and
    the lines left. *)
Definition brace_block (line : str) (rest : list str)
  : list str * Z * list str :=
  let bc0 := brace_delta line in
  let '(code_block, bc1, rest1) :=
    match rest with
    | next :: rest' =>
        if (bc0 =? 0)%Z && negb (is_blank next) && first_is lbrace (strip next)
        then ([line; next], brace_delta next, rest')
        else ([line], bc0, rest)
    | [] => ([line], bc0, rest)
    end in
  let '(more, bc2, rest2) := collect_braces bc1 rest1 in
  (code_block ++ more, bc2, rest2).

(** The inner [while] of the indentation branch, with its [break]. *)
Fixpoint collect_indented (rest : list str) : list str * list str :=
  match rest with
  | l :: rest' =>
      if is_indented l || is_blank l then
        let stop :=
          match rest' with
          | next :: _ => negb (is_indented next) && negb (is_blank next)
          | [] => false
          end in
        if stop then ([l], rest')
        else let '(more, after) := collect_indented rest' in (l :: more, after)
      else ([], rest)
  | [] => ([], [])
  end.

(** One iteration of [while i < len(lines)] with [line = lines[i]] and
    [rest = lines[i+1:]]: the new state and the lines from the new [i] on. *)
Definition step (st : state) (line : str) (rest : list str)
  : state * list str :=
  let stripped := strip line in
  if startswith (lit "```") stripped then
    if negb (in_code_block st) then
      ({| in_code_block := true; code_lines := []; html := html st |}, rest)
    else
      ({| in_code_block := false; code_lines := [];
          html := html st ++ [pre_fragment (join [nl] (code_lines st))] |},
       rest)
  else if in_code_block st then
    ({| in_code_block := true; code_lines := code_lines st ++ [line];
        html := html st |}, rest)
  else
    match heading_re stripped with
    | Some (number, title) =>
        let level := length (split dot number) in
        if title_ok title
        then (emit st (heading_fragment level number stripped), rest)
        else (emit st (p_fragment line), rest)
    | None =>
        if is_code_start stripped then
          let '(code_block, brace_count, rest') := brace_block line rest in
          if (1 <? length code_block)%nat || (brace_count =? 0)%Z
          then (emit st (pre_fragment (join [nl] code_block)), rest')
          else (emit st (p_fragment line), rest')
        else if is_indented line then
          let '(more, rest') := collect_indented rest in
          (emit st (pre_fragment (rstrip (join [nl] (line :: more)))), rest')
        else if is_blank line then
          (emit st gap_fragment, rest)
        else
          (emit st (p_fragment line), rest)
    end.

Lemma collect_braces_length bc rest :
  (length (collect_braces bc rest).2 <= length rest)%nat.
Proof.
  revert bc; induction rest as [|l rest IH]; intros bc; simpl; [lia|].
  destruct (0 <? bc)%Z; simpl; [|lia].
  specialize (IH (bc + brace_delta l)%Z).
  destruct (collect_braces _ rest) as [[more bc'] after]; simpl in *; lia.
Qed.

Lemma brace_block_length line rest :
  (length (brace_block line rest).2 <= length rest)%nat.
Proof.
  unfold brace_block.
  destruct rest as [|next rest'].
  - simpl. lia.
  - destruct (_ && _ && _).
    + pose proof (collect_braces_length (brace_delta next) rest') as H.
      destruct (collect_braces _ rest') as [[more bc'] after]; simpl in *; lia.
    + pose proof (collect_braces_length (brace_delta line) (next :: rest')) as H.
      destruct (collect_braces _ (next :: rest')) as [[more bc'] after];
        simpl in *; lia.
Qed.

Lemma collect_indented_length rest :
  (length (collect_indented rest).2 <= length rest)%nat.
Proof.
  induction rest as [|l rest IH]; simpl; [lia|].
  destruct (_ || _); simpl; [|lia].
  destruct (match rest with [] => false | _ => _ end); simpl; [lia|].
  destruct (collect_indented rest) as [more after]; simpl in *; lia.
Qed.

Lemma step_length st line rest :
  (length (step st line rest).2 <= length rest)%nat.
Proof.
  unfold step.
  repeat match goal with
         | |- context [if ?b then _ else _] => destruct b
         | |- context [match heading_re ?s with _ => _ end] =>
             destruct (heading_re s) as [[? ?]|]
         end; simpl; try lia.
  - pose proof (brace_block_length line rest) as H.
    destruct (brace_block line rest) as [[cb bc] after]; simpl in *.
    destruct (_ || _); simpl; lia.
  - pose proof (collect_indented_length rest) as H.
    destruct (collect_indented rest) as [more after]; simpl in *; lia.
Qed.

(** The [while] loop from the state [st] with [lines[i:] = ls]: the final
    value of [html]. *)
Equations? loop (st : state) (ls : list str) : list str by wf (length ls) lt :=
  loop st [] := html st;
  loop st (line :: rest) := loop (step st line rest).1 (step st line rest).2.
Proof. pose proof (step_length st line rest). simpl. lia. Qed.

(** [in_code_block = False], [code_lines = []], [html = []] *)
Definition initial : state :=
  {| in_code_block := false; code_lines := []; html := [] |}.

Definition format_content_to_html (content : str) : str :=
  join [nl] (loop initial (split_lines content)).

(** ** [generate_toc_html] *)

(** The f-string appended for one item. *)
Definition toc_link (item : toc_entry) : str :=
  let indent := ((Z.of_nat (level item) - 1) * 15)%Z in
  [nl] ++ lit "        <a href=" ++ [dquote] ++ lit "#" ++ id item ++ [dquote]
    ++ lit " class=" ++ [dquote] ++ lit "toc-link level-"
    ++ str_of_nat (level item) ++ [dquote]
    ++ lit " style=" ++ [dquote] ++ lit "padding-left: " ++ str_of_int indent
    ++ lit "px;" ++ [dquote] ++ lit ">"
    ++ [nl] ++ lit "            <span class=" ++ [dquote] ++ lit "toc-num"
    ++ [dquote] ++ lit ">" ++ number item ++ lit "</span>"
    ++ [nl] ++ lit "            <span class=" ++ [dquote] ++ lit "toc-text"
    ++ [dquote] ++ lit ">" ++ escape (title item) ++ lit "</span>"
    ++ [nl] ++ lit "        </a>".

Definition generate_toc_html (toc_items : list toc_entry) : str :=
  match toc_items with
  | [] =>
      lit "<div class=" ++ [dquote] ++ lit "empty-toc" ++ [dquote] ++ lit ">"
        ++ [0x6682; 0x65E0; 0x76EE; 0x5F55]                  (* 暂无目录 *)
        ++ lit "</div>"
  | _ =>
      foldl (fun html item => html ++ toc_link item)
            (lit "<div class=" ++ [dquote] ++ lit "toc-tree" ++ [dquote] ++ lit ">")
            toc_items
        ++ lit "</div>"
  end.

(** ** Vocabulary of the statements *)

(** *** Languages of pattern constructs *)

Definition run_of (p : char -> bool) (a : str) : Prop :=
  a <> [] /\ Forall (fun c => p c = true) a.

(** What a pattern construct matches, whatever follows it: it consumes a
    string of the language [L] and hands the rest to the continuation. *)
Definition accepts {R : Type} (x : (str -> option R) -> str -> option R)
           (L : str -> Prop) : Prop :=
  forall k s, is_Some (x k s) <->
              exists a b, s = a ++ b /\ L a /\ is_Some (k b).

(** A pattern construct only ever continues on a suffix of its input. *)
Definition continues_on_suffix {R : Type}
           (x : (str -> option R) -> str -> option R) : Prop :=
  forall k s r, x k s = Some r -> exists b, b `suffix_of` s /\ k b = Some r.

Definition upto2_lang (L : str -> Prop) (a : str) : Prop :=
  a = [] \/ L a \/ exists a1 a2, a = a1 ++ a2 /\ L a1 /\ L a2.

Definition dot_digits_lang (a : str) : Prop :=
  exists d, a = dot :: d /\ run_of is_decimal d.

Definition tail_lang (ws body r3 : str) : Prop :=
  run_of is_space ws /\ run_of any_char body /\ at_end r3 = true.

(** *** Shapes of heading lines *)

(** The rule in the words of the specification: one to three integers
    separated by dots, a period, a single space and a non-empty rest.  An
    integer is a non-empty run of decimal digits. *)
Definition spec_heading_shape (s : str) : Prop :=
  exists nums rest,
    (1 <= length nums <= 3)%nat /\ Forall (run_of is_decimal) nums /\
    rest <> [] /\
    s = join [dot] nums ++ [dot; space] ++ rest.

Definition spec_heading_rule : Prop :=
  forall content line,
    line ∈ split_lines content ->
    is_Some (heading_re (strip line)) <-> spec_heading_shape (strip line).

(** The rule of the pattern: after the period comes white space, one
    character or more, of any kind. *)
Definition heading_shape (s : str) : Prop :=
  exists nums ws rest,
    (1 <= length nums <= 3)%nat /\ Forall (run_of is_decimal) nums /\
    run_of is_space ws /\ rest <> [] /\
    s = join [dot] nums ++ [dot] ++ ws ++ rest.

(** *** Reading escaped text back *)

(** What [html.escape] does to one character. *)
Definition escape_char (c : char) : str :=
  if c =? amp then lit "&amp;"
  else if c =? lt_sign then lit "&lt;"
  else if c =? gt_sign then lit "&gt;"
  else if c =? dquote then lit "&quot;"
  else if c =? squote then lit "&#x27;"
  else [c].

(** The inverse of [escape] on its five entities, for stating that escaped
    text can be read back. *)
Definition entities : list (str * char) :=
  [ (lit "&amp;", amp); (lit "&lt;", lt_sign); (lit "&gt;", gt_sign);
    (lit "&quot;", dquote); (lit "&#x27;", squote) ].

Fixpoint unescape_aux (fuel : nat) (s : str) : str :=
  match fuel, s with
  | S fuel', c :: s' =>
      match List.find (fun e => startswith (fst e) s) entities with
      | Some (name, ch) => ch :: unescape_aux fuel' (drop (length name) s)
      | None => c :: unescape_aux fuel' s'
      end
  | _, _ => []
  end.

Definition unescape (s : str) : str := unescape_aux (length s) s.

(** The number of UTF-8 bytes of a code point, to set against [len]. *)
Definition utf8_length (c : char) : nat :=
  if c <? 0x80 then 1 else if c <? 0x800 then 2 else if c <? 0x10000 then 3 else 4.

Definition utf8_size (s : str) : nat := list_sum (List.map utf8_length s).

(** *** Runs of the two loops *)

(** The loop variables after [n] iterations (or at the end of the input, if
    that comes first), with the lines not yet consumed. *)
Fixpoint steps (n : nat) (st : state) (ls : list str) : state * list str :=
  match n, ls with
  | S n', line :: rest => steps n' (step st line rest).1 (step st line rest).2
  | _, _ => (st, ls)
  end.

(** The iterations of the loop, each with the lines it consumes
    ([lines[i:new_i]]) and the fragments it appends to [html]. *)
Equations? blocks (st : state) (ls : list str) : list (list str * list str)
  by wf (length ls) lt :=
  blocks st [] := [];
  blocks st (line :: rest) :=
    (take (S (length rest) - length (step st line rest).2) (line :: rest),
     drop (length (html st)) (html (step st line rest).1))
    :: blocks (step st line rest).1 (step st line rest).2.
Proof. pose proof (step_length st line rest). simpl. lia. Qed.

(** The reading of the fence rule under which only a bare marker closes a
    fence: a fence that is open stays open unless the line trims to exactly
    three backticks. *)
Definition fence_ends_only_on_bare_marker : Prop :=
  forall st line rest,
    in_code_block st = true ->
    in_code_block (step st line rest).1 = false ->
    strip line = lit "```".

(** What [extract_toc] makes of a line before it looks at [toc_ids]: the
    number and title of a line that matches the pattern and passes the
    checks on the line itself. *)
Definition candidate (line : str) : option (str * str) :=
  match heading_re (strip line) with
  | Some (number, group2) =>
      if line_ok (strip line) (strip group2)
      then Some (number, strip group2) else None
  | None => None
  end.

Definition entry_of (number title : str) : toc_entry :=
  {| id := toc_id number; number := number; title := title;
     level := length (split dot number) |}.

Definition toc_inv (st : toc_state) : Prop :=
  (forall n, n ∈ toc_ids st <-> n ∈ List.map number (toc st))
  /\ NoDup (List.map number (toc st)).

Abbreviation entries_numbered n entries :=
  (filter (fun e : toc_entry => number e = n) entries).

(** *** Further vocabulary *)

(** A pattern construct that matches consumes a string of the language [L]
    and continues on what is left. *)
Definition consumes {R : Type} (x : (str -> option R) -> str -> option R)
           (L : str -> Prop) : Prop :=
  forall k s r, x k s = Some r ->
                exists a b, s = a ++ b /\ L a /\ k b = Some r.

(** A numeric path: one to three runs of digits joined by dots. *)
Definition numeric_path (number : str) (nums : list str) : Prop :=
  (1 <= length nums <= 3)%nat /\ Forall (run_of is_decimal) nums /\
  number = join [dot] nums.

(** The balance is positive before each of the lines: the inner [while] of
    the brace rule takes them all. *)
Fixpoint stays_open (brace_count : Z) (rest : list str) : bool :=
  match rest with
  | [] => true
  | l :: rest' =>
      (0 <? brace_count)%Z && stays_open (brace_count + brace_delta l) rest'
  end.

(** The test of the inner [while] of the indentation rule. *)
Definition indented_or_blank (line : str) : bool :=
  is_indented line || is_blank line.


(** * Properties *)

(** ** Strings *)

Section StringFacts.

Lemma lstrip_first s c t : lstrip s = c :: t -> is_space c = false.
Proof.
  induction s as [|x s IH]; simpl; [discriminate|].
  destruct (is_space x) eqn:Hx; [exact IH|].
  intros [= <- <-]. exact Hx.
Qed.

Lemma lstrip_suffix s : lstrip s `suffix_of` s.
Proof.
  induction s as [|x s IH]; simpl; [done|].
  destruct (is_space x); [by apply suffix_cons_r | done].
Qed.

Lemma lstrip_id s :
  (forall c t, s = c :: t -> is_space c = false) -> lstrip s = s.
Proof.
  destruct s as [|c t]; [done|]. intros H. simpl. by rewrite (H c t eq_refl).
Qed.

Lemma last_rev (s : str) : last (rev s) = head s.
Proof. destruct s as [|x s]; [done|]. simpl. apply last_snoc. Qed.

Lemma rstrip_last s c : last (rstrip s) = Some c -> is_space c = false.
Proof.
  unfold rstrip. rewrite last_rev.
  destruct (lstrip (rev s)) as [|x t] eqn:E; simpl; [discriminate|].
  intros [= <-]. eapply lstrip_first, E.
Qed.

Lemma rstrip_prefix s : rstrip s `prefix_of` s.
Proof.
  unfold rstrip. destruct (lstrip_suffix (rev s)) as [k Hk].
  exists (rev k). apply (f_equal (@rev N)) in Hk.
  rewrite rev_involutive, rev_app_distr in Hk. exact Hk.
Qed.

Lemma rstrip_id s :
  (forall c, last s = Some c -> is_space c = false) -> rstrip s = s.
Proof.
  intros H. unfold rstrip. rewrite lstrip_id; [apply rev_involutive|].
  intros c t E. apply H. rewrite <- (rev_involutive s), E, last_rev. done.
Qed.

Lemma strip_first s c t : strip s = c :: t -> is_space c = false.
Proof.
  unfold strip. intros E.
  destruct (rstrip_prefix (lstrip s)) as [k Hk]. rewrite E in Hk.
  eapply lstrip_first. exact Hk.
Qed.

Lemma strip_last s c : last (strip s) = Some c -> is_space c = false.
Proof. apply rstrip_last. Qed.

Lemma strip_id s :
  (forall c t, s = c :: t -> is_space c = false) ->
  (forall c, last s = Some c -> is_space c = false) ->
  strip s = s.
Proof. intros H1 H2. unfold strip. rewrite lstrip_id by done. by apply rstrip_id. Qed.

(** A stripped string is a factor of the original. *)
Lemma strip_factor s : exists a b, s = a ++ strip s ++ b.
Proof.
  unfold strip.
  destruct (lstrip_suffix s) as [a Ha].
  destruct (rstrip_prefix (lstrip s)) as [b Hb].
  exists a, b. rewrite <- Hb. exact Ha.
Qed.

Lemma split_cons c s : exists f fs, split c s = f :: fs.
Proof.
  induction s as [|x s (f & fs & E)]; simpl; [by eauto|].
  destruct (x =? c); [by eauto|]. rewrite E. by eauto.
Qed.

(** The fields of [s.split(c)] do not contain [c]. *)
Lemma split_no_sep c s f : f ∈ split c s -> c ∉ f.
Proof.
  revert f; induction s as [|x s IH]; simpl; intros f Hf.
  - apply list_elem_of_singleton in Hf as ->. apply not_elem_of_nil.
  - destruct (N.eqb_spec x c) as [->|Hne].
    + apply elem_of_cons in Hf as [->|Hf]; [apply not_elem_of_nil | by apply IH].
    + destruct (split c s) as [|g gs] eqn:E.
      * apply list_elem_of_singleton in Hf as ->.
        intros [->|H]%elem_of_cons; [done | by apply not_elem_of_nil in H].
      * apply elem_of_cons in Hf as [->|Hf].
        -- intros [->|H]%elem_of_cons; [done|].
           revert H. apply IH. by left.
        -- apply IH. by right.
Qed.

Lemma join_cons sep p q ps :
  join sep (p :: q :: ps) = p ++ sep ++ join sep (q :: ps).
Proof. reflexivity. Qed.

(** [c.join(s.split(c)) == s] *)
Lemma join_split c s : join [c] (split c s) = s.
Proof.
  induction s as [|x s IH]; [done|]. cbn [split].
  destruct (split_cons c s) as (f & fs & E). rewrite E in *.
  destruct (N.eqb_spec x c) as [->|Hne].
  - by rewrite join_cons, IH.
  - destruct fs as [|g gs]; [simpl in *; by rewrite IH|].
    rewrite join_cons in *. by rewrite <- IH.
Qed.

Lemma replace_app c r s t : replace c r (s ++ t) = replace c r s ++ replace c r t.
Proof. unfold replace. apply flat_map_app. Qed.

End StringFacts.

(** ** The matcher *)

Section MatcherFacts.
Context {R : Type}.
Implicit Types (k : str -> option R) (p : char -> bool) (s : str).

(** The match that [plus] returns is the one with the longest run: every
    longer run fails. *)
Lemma plus_first p k s r :
  plus p k s = Some r ->
  exists a b, s = a ++ b /\ a <> [] /\ Forall (fun c => p c = true) a /\
              k b = Some r /\ plus p k b = None.
Proof.
  revert r; induction s as [|c s IH]; intros r; simpl; [discriminate|].
  destruct (p c) eqn:Hc; [|discriminate].
  destruct (plus p k s) as [r'|] eqn:E.
  - intros [= <-]. destruct (IH _ eq_refl) as (a & b & -> & _ & Ha & Hk & Hn).
    exists (c :: a), b. repeat split; auto. 
  - intros Hk. exists [c], s. repeat split; auto. 
Qed.

Lemma plus_None_cons p k c s :
  plus p k (c :: s) = None -> p c = true -> k s = None.
Proof. simpl. intros H Hc. rewrite Hc in H. by destruct (plus p k s). Qed.

Lemma plus_is_Some p k s :
  is_Some (plus p k s) <->
  exists a b, s = a ++ b /\ a <> [] /\ Forall (fun c => p c = true) a /\
              is_Some (k b).
Proof.
  split.
  - intros [r Hr]. destruct (plus_first _ _ _ _ Hr) as (a & b & ? & ? & ? & ? & _).
    exists a, b. eauto.
  - intros (a & b & -> & Hne & Ha & Hk).
    induction Ha as [|c a Hc Ha IH]; [done|]. simpl. rewrite Hc.
    destruct a as [|c' a'].
    + simpl in *. destruct (plus p k b); [by eauto | done].
    + destruct IH as [r ->]; by eauto.
Qed.

Lemma one_is_Some p k s :
  is_Some (one p k s) <-> exists c b, s = c :: b /\ p c = true /\ is_Some (k b).
Proof.
  unfold one. split.
  - destruct s as [|c b]; [by intros [? ?]|].
    destruct (p c) eqn:Hc; [by eauto | by intros [? ?]].
  - intros (c & b & -> & -> & H). done.
Qed.

Lemma plus_accepts p : accepts (R:=R) (plus p) (run_of p).
Proof.
  intros k s. rewrite plus_is_Some. unfold run_of. naive_solver.
Qed.

Lemma plus_suffix p : continues_on_suffix (R:=R) (plus p).
Proof.
  intros k s r H. destruct (plus_first _ _ _ _ H) as (a & b & -> & _ & _ & Hk & _).
  exists b. split; [by apply suffix_app_r | done].
Qed.

Lemma one_suffix p : continues_on_suffix (R:=R) (one p).
Proof.
  intros k [|c s] r; simpl; [done|]. destruct (p c); [|done].
  intros H. exists s. split; [by apply suffix_cons_r | done].
Qed.

Lemma upto2_accepts x L :
  accepts (R:=R) x L -> accepts (upto2 x) (upto2_lang L).
Proof.
  intros Hx k s. unfold upto2, upto2_lang.
  set (k' := fun s1 => match x k s1 with Some r => Some r | None => k s1 end).
  assert (Hk' : forall s1, is_Some (k' s1) <-> is_Some (x k s1) \/ is_Some (k s1)).
  { intros s1. unfold k'. destruct (x k s1); [|naive_solver].
    split; [by left | by eauto]. }
  transitivity (is_Some (x k' s) \/ is_Some (k s)).
  { destruct (x k' s); [|naive_solver]. split; [by left | by eauto]. }
  rewrite (Hx k' s). split.
  - intros [(a & b & -> & Ha & [Hb|Hb]%Hk')|Hk].
    + apply Hx in Hb as (a2 & b2 & -> & Ha2 & Hk).
      exists (a ++ a2), b2. rewrite <- (assoc_L (++)). naive_solver.
    + exists a, b. naive_solver.
    + exists [], s. naive_solver.
  - intros (a & b & -> & [->|[Ha|(a1 & a2 & -> & Ha1 & Ha2)]] & Hk).
    + by right.
    + left. exists a, b. rewrite Hk'. naive_solver.
    + left. exists a1, (a2 ++ b). rewrite <- (assoc_L (++)), Hk'.
      split_and!; [done..|]. left. apply Hx. naive_solver.
Qed.

Lemma upto2_suffix x :
  continues_on_suffix (R:=R) x -> continues_on_suffix (upto2 x).
Proof.
  intros Hx k s r. unfold upto2.
  destruct (x _ s) as [r'|] eqn:E.
  - intros [= <-]. apply Hx in E as (b & Hb & E).
    destruct (x k b) as [r''|] eqn:E2.
    + injection E as <-. apply Hx in E2 as (b2 & Hb2 & E2).
      exists b2. split; [by etrans | done].
    + by eauto.
  - intros Hk. by eauto.
Qed.
End MatcherFacts.

Lemma dot_digits_suffix {R} : continues_on_suffix (@dot_digits R).
Proof.
  intros k s r H. apply one_suffix in H as (b & Hb & H).
  apply plus_suffix in H as (b2 & Hb2 & H). exists b2. split; [by etrans | done].
Qed.

Lemma dot_digits_accepts {R} : accepts (@dot_digits R) dot_digits_lang.
Proof.
  intros k s. unfold dot_digits, dot_digits_lang. rewrite one_is_Some. split.
  - intros (c & b & -> & ->%N.eqb_eq & (d & b2 & -> & Hd)%plus_accepts).
    exists (c :: d), b2. naive_solver.
  - intros (a & b & -> & (d & -> & Hd) & Hk).
    exists dot, (d ++ b). split_and!; [done | apply N.eqb_refl |].
    apply plus_accepts. naive_solver.
Qed.

Lemma between_app (a b : str) : between (a ++ b) b = a.
Proof.
  unfold between. rewrite length_app.
  replace (length a + length b - length b)%nat with (length a) by lia.
  by rewrite take_app_length.
Qed.

Lemma at_end_inv r : at_end r = true -> r = [] \/ r = [nl].
Proof.
  destruct r as [|c [|? ?]]; simpl; [by left | | done].
  intros ->%N.eqb_eq. by right.
Qed.

Lemma after_number_is_Some s r1 :
  is_Some (after_number s r1) <->
  exists ws body r3, r1 = dot :: ws ++ body ++ r3 /\ tail_lang ws body r3.
Proof.
  unfold after_number, tail_lang. rewrite one_is_Some. split.
  - intros (c & b & -> & ->%N.eqb_eq & (ws & r2 & -> & Hws & H)%plus_accepts).
    apply plus_accepts in H as (body & r3 & -> & Hbody & H).
    exists ws, body, r3. destruct (at_end r3); [done | by destruct H].
  - intros (ws & body & r3 & -> & Hws & Hbody & Hend).
    exists dot, (ws ++ body ++ r3). split_and!; [done | apply N.eqb_refl |].
    apply plus_accepts. exists ws, (body ++ r3). split_and!; [done..|].
    apply plus_accepts. exists body, r3. rewrite Hend. by eauto.
Qed.

(** The strings on which the pattern matches. *)
Lemma heading_re_is_Some s :
  is_Some (heading_re s) <->
  exists d reps ws body r3,
    s = d ++ reps ++ [dot] ++ ws ++ body ++ r3 /\
    run_of is_decimal d /\ upto2_lang dot_digits_lang reps /\
    tail_lang ws body r3.
Proof.
  unfold heading_re. split.
  - intros (d & b & -> & Hd & H)%plus_accepts.
    apply (upto2_accepts _ _ dot_digits_accepts) in H as (reps & r1 & -> & Hreps & H).
    apply after_number_is_Some in H as (ws & body & r3 & -> & Ht).
    exists d, reps, ws, body, r3. done.
  - intros (d & reps & ws & body & r3 & -> & Hd & Hreps & Ht).
    apply plus_accepts.
    exists d, (reps ++ [dot] ++ ws ++ body ++ r3). split_and!; [done..|].
    apply (upto2_accepts _ _ dot_digits_accepts).
    exists reps, ([dot] ++ ws ++ body ++ r3). split_and!; [done..|].
    apply after_number_is_Some. by exists ws, body, r3.
Qed.

Lemma suffix_last (b s : str) c :
  b `suffix_of` s -> last b = Some c -> last s = Some c.
Proof. intros [k ->] H. rewrite last_app, H. done. Qed.

(** On a string that does not end in white space, group 2 is the whole rest
    of the string after the white space that follows the number. *)
Lemma heading_re_group2 s number g2 :
  heading_re s = Some (number, g2) ->
  (forall c, last s = Some c -> is_space c = false) ->
  g2 <> [] /\ g2 `suffix_of` s /\ strip g2 = g2.
Proof.
  unfold heading_re. intros H Hlast.
  apply plus_suffix in H as (b & Hb & H).
  apply (upto2_suffix _ dot_digits_suffix) in H as (r1 & Hr1 & H).
  assert (Hs1 : r1 `suffix_of` s) by (by etrans). clear b Hb Hr1.
  unfold after_number, one in H. destruct r1 as [|c r1]; [done|].
  destruct (N.eqb dot c); [|done].
  apply plus_first in H as (ws & r2 & -> & _ & _ & H & Hprio).
  apply plus_first in H as (body & r3 & -> & Hne & Hbody & H & _).
  destruct (at_end r3) eqn:Hend; [|done].
  injection H as _ <-. rewrite between_app.
  assert (Hs3 : (body ++ r3) `suffix_of` s).
  { etrans; [|exact Hs1]. apply suffix_cons_r, suffix_app_r. done. }
  apply at_end_inv in Hend as [->| ->].
  2:{ exfalso. assert (is_space nl = false); [|done].
      apply Hlast. eapply suffix_last; [exact Hs3|]. apply last_snoc. }
  rewrite app_nil_r in *. split_and!; [done..|].
  apply strip_id.
  - intros c0 body' -> .
    destruct (is_space c0) eqn:Hc0; [exfalso|done].
    apply plus_None_cons in Hprio; [|done].
    apply (is_Some_None (A := str * str)). rewrite <- Hprio.
    apply plus_is_Some. exists body', []. rewrite app_nil_r. split_and!; [done | | | by eauto].
    + intros ->. assert (is_space c0 = false); [|congruence].
      apply Hlast. eapply suffix_last; [exact Hs3|done].
    + by inversion Hbody.
  - intros c0 Hc0. apply Hlast. eapply suffix_last; [exact Hs3 | exact Hc0].
Qed.

(** ** Escaping *)

Lemma escape_one c : escape [c] = escape_char c.
Proof.
  unfold escape_char.
  destruct (N.eqb_spec c amp) as [->|H1]; [done|].
  destruct (N.eqb_spec c lt_sign) as [->|H2]; [done|].
  destruct (N.eqb_spec c gt_sign) as [->|H3]; [done|].
  destruct (N.eqb_spec c dquote) as [->|H4]; [done|].
  destruct (N.eqb_spec c squote) as [->|H5]; [done|].
  unfold escape, replace. cbn [flat_map app].
  apply N.eqb_neq in H1, H2, H3, H4, H5.
  rewrite H1. cbn [flat_map app]. rewrite H2. cbn [flat_map app].
  rewrite H3. cbn [flat_map app]. rewrite H4. cbn [flat_map app].
  rewrite H5. done.
Qed.

Lemma escape_app s t : escape (s ++ t) = escape s ++ escape t.
Proof. unfold escape. by rewrite !replace_app. Qed.

(** The five replacements in a row amount to one pass over the text. *)
Lemma escape_flat_map s : escape s = flat_map escape_char s.
Proof.
  induction s as [|c s IH]; [done|].
  change (c :: s) with ([c] ++ s). rewrite escape_app, escape_one, IH. done.
Qed.

Lemma startswith_head_ne a p c t : a <> c -> startswith (a :: p) (c :: t) = false.
Proof. intros H%N.eqb_neq. simpl. by rewrite H. Qed.

Lemma unescape_aux_char c t fuel :
  unescape_aux (S fuel) (escape_char c ++ t) = c :: unescape_aux fuel t.
Proof.
  unfold escape_char.
  destruct (N.eqb_spec c amp) as [->|H1]; [done|].
  destruct (N.eqb_spec c lt_sign) as [->|H2]; [done|].
  destruct (N.eqb_spec c gt_sign) as [->|H3]; [done|].
  destruct (N.eqb_spec c dquote) as [->|H4]; [done|].
  destruct (N.eqb_spec c squote) as [->|H5]; [done|].
  cbn [app unescape_aux]. unfold entities.
  change (lit "&amp;") with (amp :: lit "amp;").
  change (lit "&lt;") with (amp :: lit "lt;").
  change (lit "&gt;") with (amp :: lit "gt;").
  change (lit "&quot;") with (amp :: lit "quot;").
  change (lit "&#x27;") with (amp :: lit "#x27;").
  cbn [List.find fst]. rewrite !startswith_head_ne by congruence. done.
Qed.

Lemma escape_char_length c : (1 <= length (escape_char c))%nat.
Proof.
  unfold escape_char.
  repeat match goal with |- context [if ?b then _ else _] => destruct b end;
    simpl; lia.
Qed.

Lemma unescape_aux_escape s fuel :
  (length (flat_map escape_char s) <= fuel)%nat ->
  unescape_aux fuel (flat_map escape_char s) = s.
Proof.
  revert fuel; induction s as [|c s IH]; intros fuel Hf.
  { by destruct fuel. }
  cbn [flat_map] in *. rewrite length_app in Hf.
  pose proof (escape_char_length c).
  destruct fuel as [|fuel]; [lia|].
  rewrite unescape_aux_char. f_equal. apply IH. lia.
Qed.

Lemma escape_char_safe c x :
  x ∈ escape_char c ->
  x <> lt_sign /\ x <> gt_sign /\ x <> dquote /\ x <> squote.
Proof.
  unfold escape_char.
  destruct (N.eqb_spec c amp); [|destruct (N.eqb_spec c lt_sign);
    [|destruct (N.eqb_spec c gt_sign); [|destruct (N.eqb_spec c dquote);
      [|destruct (N.eqb_spec c squote)]]]].
  1-5: intros H; repeat (apply elem_of_cons in H as [->|H]; [by vm_compute|]);
       by apply elem_of_nil in H.
  intros ->%list_elem_of_singleton. done.
Qed.

(** Escaped text reads back as the original. *)
Lemma unescape_escape s : unescape (escape s) = s.
Proof. unfold unescape. rewrite escape_flat_map. by apply unescape_aux_escape. Qed.

(** ** The classifier loop *)

Lemma loop_nil st : loop st [] = html st.
Proof. by simp loop. Qed.

Lemma loop_cons st line rest :
  loop st (line :: rest) = loop (step st line rest).1 (step st line rest).2.
Proof. by simp loop. Qed.

Lemma loop_steps n st ls : loop st ls = loop (steps n st ls).1 (steps n st ls).2.
Proof.
  revert st ls; induction n as [|n IH]; intros st [|line rest]; try done.
  rewrite loop_cons. simpl. apply IH.
Qed.

Lemma steps_add n m st ls :
  steps (n + m) st ls = steps m (steps n st ls).1 (steps n st ls).2.
Proof.
  revert st ls; induction n as [|n IH]; intros st ls; [done|].
  destruct ls as [|line rest]; [by destruct m|]. simpl. apply IH.
Qed.

Lemma format_content_to_html_steps content n st ls :
  steps n initial (split_lines content) = (st, ls) ->
  format_content_to_html content = join [nl] (loop st ls).
Proof.
  intros H. unfold format_content_to_html.
  by rewrite (loop_steps n), H.
Qed.

(** Each branch of [step] in turn. *)

Lemma step_fence_open st line rest :
  is_fence line = true -> in_code_block st = false ->
  step st line rest =
    ({| in_code_block := true; code_lines := []; html := html st |}, rest).
Proof. unfold step, is_fence. by intros -> ->. Qed.

Lemma step_fence_close st line rest :
  is_fence line = true -> in_code_block st = true ->
  step st line rest =
    ({| in_code_block := false; code_lines := [];
        html := html st ++ [pre_fragment (join [nl] (code_lines st))] |}, rest).
Proof. unfold step, is_fence. by intros -> ->. Qed.

Lemma step_fence_body st line rest :
  is_fence line = false -> in_code_block st = true ->
  step st line rest =
    ({| in_code_block := true; code_lines := code_lines st ++ [line];
        html := html st |}, rest).
Proof. unfold step, is_fence. by intros -> ->. Qed.

Lemma heading_re_first s r :
  heading_re s = Some r -> exists c t, s = c :: t /\ is_decimal c = true.
Proof.
  unfold heading_re. destruct s as [|c t]; [done|]. simpl.
  destruct (is_decimal c) eqn:Hc; [by eauto | done].
Qed.

(** A line that matches the heading pattern begins with a digit, so it is no
    fence marker. *)
Lemma heading_not_fence line r :
  heading_re (strip line) = Some r -> is_fence line = false.
Proof.
  intros (c & t & E & Hc)%heading_re_first. unfold is_fence. rewrite E.
  destruct (N.eqb_spec backtick c) as [<-|Hne]; [done|].
  change (lit "```") with (backtick :: lit "``").
  by apply startswith_head_ne.
Qed.

Lemma step_heading st line rest number title :
  in_code_block st = false ->
  heading_re (strip line) = Some (number, title) ->
  step st line rest =
    (emit st (if title_ok title
              then heading_fragment (length (split dot number)) number (strip line)
              else p_fragment line), rest).
Proof.
  intros Hst H. pose proof (heading_not_fence _ _ H) as Hf.
  unfold step. unfold is_fence in Hf. rewrite Hf, Hst, H.
  by destruct (title_ok title).
Qed.

Lemma step_code_start st line rest :
  in_code_block st = false -> is_fence line = false ->
  heading_re (strip line) = None -> is_code_start (strip line) = true ->
  step st line rest =
    (emit st (if (1 <? length (brace_block line rest).1.1)%nat
                 || ((brace_block line rest).1.2 =? 0)%Z
              then pre_fragment (join [nl] (brace_block line rest).1.1)
              else p_fragment line),
     (brace_block line rest).2).
Proof.
  unfold step, is_fence. intros -> -> -> ->. simpl.
  destruct (brace_block line rest) as [[cb bc] rest']. simpl.
  by destruct (_ || _).
Qed.

(** Inside a fence, lines without a fence marker are appended to
    [code_lines], whatever they look like. *)
Lemma steps_fence_body body : forall buffered out rest,
  Forall (fun l => is_fence l = false) body ->
  steps (length body)
        {| in_code_block := true; code_lines := buffered; html := out |}
        (body ++ rest) =
    ({| in_code_block := true; code_lines := buffered ++ body; html := out |},
     rest).
Proof.
  induction body as [|l body IH]; intros buffered out rest Hb.
  - simpl. by rewrite app_nil_r.
  - inversion Hb as [|? ? Hl Hb']; subst. simpl.
    rewrite step_fence_body by done. simpl. rewrite IH by done.
    by rewrite <- (assoc_L (++)).
Qed.

(** The loop only appends to [html]. *)
Lemma step_html st line rest :
  exists more, html (step st line rest).1 = html st ++ more.
Proof.
  unfold step, emit.
  repeat match goal with
         | |- context [if ?b then _ else _] => destruct b
         | |- context [match heading_re ?s with _ => _ end] =>
             destruct (heading_re s) as [[? ?]|]
         | |- context [let '(_, _) := ?x in _] => destruct x as [[? ?] ?]
         | |- context [let '(_, _) := ?x in _] => destruct x as [? ?]
         end; simpl; try (by eexists); exists []; by rewrite app_nil_r.
Qed.

Lemma loop_html ls : forall st, exists more, loop st ls = html st ++ more.
Proof.
  induction ls as [ls IH] using (induction_ltof1 _ (@length str)).
  unfold ltof in IH. intros st. destruct ls as [|line rest].
  - rewrite loop_nil. exists []. by rewrite app_nil_r.
  - rewrite loop_cons.
    destruct (IH (step st line rest).2) with (st := (step st line rest).1)
      as [more Hm].
    { pose proof (step_length st line rest). simpl. lia. }
    destruct (step_html st line rest) as [m1 H1].
    exists (m1 ++ more). by rewrite Hm, H1, <- (assoc_L (++)).
Qed.

(** ** Fenced blocks *)

(** C2, as stated, fails: inside a fence the line [```x] is a closing marker
    although it does not trim to three backticks; the fragment ends before it
    and the next line is classified on its own. *)
Lemma fence_closed_by_longer_marker :
  ~ fence_ends_only_on_bare_marker
  /\ format_content_to_html (join [nl] [lit "```"; lit "a"; lit "```x"; lit "b"])
     = join [nl] [pre_fragment (lit "a"); p_fragment (lit "b")].
Proof.
  split; [|by vm_compute].
  intros H.
  specialize (H {| in_code_block := true; code_lines := [lit "a"]; html := [] |}
                (lit "```x") [lit "b"] eq_refl eq_refl).
  by vm_compute in H.
Qed.

(** C2 (amended): when the loop is at a line that opens a fence, the lines up
    to the next line whose trimmed content starts with three backticks are
    buffered as they are, whatever they contain; that next line closes the
    fence, and exactly one fragment is appended for the block, holding the
    escaped text of the buffered lines joined by newlines, which un-escapes
    to that text. *)
Theorem fence_round_trip content n st open body close rest :
  steps n initial (split_lines content) = (st, open :: body ++ close :: rest) ->
  in_code_block st = false ->
  is_fence open = true ->
  Forall (fun l => is_fence l = false) body ->
  is_fence close = true ->
  steps (n + (1 + (length body + 1))) initial (split_lines content)
    = ({| in_code_block := false; code_lines := [];
          html := html st ++ [pre_fragment (join [nl] body)] |}, rest)
  /\ (exists later,
        format_content_to_html content
        = join [nl] (html st ++ [pre_fragment (join [nl] body)] ++ later))
  /\ pre_fragment (join [nl] body)
     = lit "<pre><code>" ++ escape (join [nl] body) ++ lit "</code></pre>"
  /\ unescape (escape (join [nl] body)) = join [nl] body.
Proof.
  intros Hn Hst Hopen Hbody Hclose.
  assert (Hsteps : steps (n + (1 + (length body + 1))) initial (split_lines content)
    = ({| in_code_block := false; code_lines := [];
          html := html st ++ [pre_fragment (join [nl] body)] |}, rest)).
  { rewrite steps_add, Hn. cbn [fst snd]. rewrite steps_add.
    cbn [steps]. rewrite step_fence_open by done. cbn [fst snd].
    rewrite steps_add, steps_fence_body by done. cbn [fst snd steps].
    by rewrite step_fence_close. }
  split_and!; [done | | done | apply unescape_escape].
  rewrite (format_content_to_html_steps _ _ _ _ Hsteps).
  destruct (loop_html rest {| in_code_block := false; code_lines := [];
              html := html st ++ [pre_fragment (join [nl] body)] |})
    as [later ->].
  exists later. cbn [html]. by rewrite <- (assoc_L (++)).
Qed.

Lemma fence_round_trip_witness :
  format_content_to_html
    (join [nl] [lit "intro"; lit "```java"; lit "1. ABCD"; lit "a `` <b> {";
                lit "```"; lit "outro"])
  = join [nl] [p_fragment (lit "intro");
               pre_fragment (join [nl] [lit "1. ABCD"; lit "a `` <b> {"]);
               p_fragment (lit "outro")].
Proof.
  pose proof (fence_round_trip
    (join [nl] [lit "intro"; lit "```java"; lit "1. ABCD"; lit "a `` <b> {";
                lit "```"; lit "outro"])
    1 {| in_code_block := false; code_lines := []; html := [p_fragment (lit "intro")] |}
    (lit "```java") [lit "1. ABCD"; lit "a `` <b> {"] (lit "```") [lit "outro"]
    ltac:(vm_compute; reflexivity) eq_refl ltac:(vm_compute; reflexivity)
    ltac:(repeat constructor) ltac:(vm_compute; reflexivity)) as (H & _).
  erewrite format_content_to_html_steps by exact H.
  vm_compute. reflexivity.
Defined.

(** C9: when the loop is at a line that opens a fence and no later line's
    trimmed content starts with three backticks, the output is what had been
    emitted before that line: the opening line and all lines after it are
    buffered and then dropped at the end of the input. *)
Theorem unterminated_fence_discarded content n st open post :
  steps n initial (split_lines content) = (st, open :: post) ->
  in_code_block st = false ->
  is_fence open = true ->
  Forall (fun l => is_fence l = false) post ->
  format_content_to_html content = join [nl] (html st).
Proof.
  intros Hn Hst Hopen Hpost.
  rewrite (format_content_to_html_steps _ _ _ _ Hn).
  rewrite loop_cons, step_fence_open by done. cbn [fst snd].
  pose proof (steps_fence_body post [] (html st) [] Hpost) as Hbuf.
  rewrite app_nil_r in Hbuf.
  by rewrite (loop_steps (length post)), Hbuf, loop_nil.
Qed.

Lemma unterminated_fence_discarded_witness :
  format_content_to_html
    (join [nl] [lit "kept"; lit "```"; lit "2. Lost Heading"; lit "lost text"])
  = p_fragment (lit "kept").
Proof.
  apply (unterminated_fence_discarded _ 1
           {| in_code_block := false; code_lines := [];
              html := [p_fragment (lit "kept")] |}
           (lit "```") [lit "2. Lost Heading"; lit "lost text"]).
  - vm_compute. reflexivity.
  - reflexivity.
  - vm_compute. reflexivity.
  - repeat constructor.
Defined.

(** ** Headings: the outline against the body *)

Lemma toc_line_candidate st line :
  toc_line st line =
    match candidate line with
    | Some (number, title) =>
        if bool_decide (number ∈ toc_ids st) then st
        else {| toc := toc st ++ [entry_of number title];
                toc_ids := {[ number ]} ∪ toc_ids st |}
    | None => st
    end.
Proof.
  unfold toc_line, candidate.
  destruct (heading_re (strip line)) as [[number g2]|]; [|done].
  destruct (line_ok _ _); [|done]. simpl.
  by destruct (bool_decide _).
Qed.

(** Group 2 of a match on a trimmed line has no white space at either end:
    [extract_toc]'s [title] and the body's [title] are the same string. *)
Lemma heading_title_stripped line number g2 :
  heading_re (strip line) = Some (number, g2) -> strip g2 = g2.
Proof.
  intros H. eapply heading_re_group2; [exact H|]. apply strip_last.
Qed.

(** C7: ["1. ABCD"] is a heading of level 1 with number ["1"] and id
    ["h-1"], in the outline and in the body; ["1. ABC"] is in neither and is
    rendered as a paragraph.  The length that is compared with 4 is the number
    of code points: a title of four CJK characters or of four characters
    outside the BMP is accepted, and a title of three CJK characters is
    rejected although it has nine bytes. *)
Theorem heading_length_boundary :
  extract_toc (lit "1. ABCD")
    = [ {| id := lit "h-1"; number := lit "1"; title := lit "ABCD"; level := 1 |} ]
  /\ format_content_to_html (lit "1. ABCD")
     = lit "<h2 id=" ++ [dquote] ++ lit "h-1" ++ [dquote] ++ lit " class="
         ++ [dquote] ++ lit "heading level-1" ++ [dquote] ++ lit ">1. ABCD</h2>"
  /\ extract_toc (lit "1. ABC") = []
  /\ format_content_to_html (lit "1. ABC") = lit "<p>1. ABC</p>"
  /\ (let cjk4 := [0x4E2D; 0x6587; 0x6807; 0x9898] in
      List.map title (extract_toc (lit "1. " ++ cjk4)) = [cjk4]
      /\ format_content_to_html (lit "1. " ++ cjk4)
         = heading_fragment 1 (lit "1") (lit "1. " ++ cjk4))
  /\ (let wide4 := [0x1F600; 0x1F600; 0x1F600; 0x1F600] in
      List.map title (extract_toc (lit "1. " ++ wide4)) = [wide4]
      /\ format_content_to_html (lit "1. " ++ wide4)
         = heading_fragment 1 (lit "1") (lit "1. " ++ wide4))
  /\ (let cjk3 := [0x4E2D; 0x6587; 0x6807] in
      utf8_size cjk3 = 9%nat
      /\ extract_toc (lit "1. " ++ cjk3) = []
      /\ format_content_to_html (lit "1. " ++ cjk3) = p_fragment (lit "1. " ++ cjk3)).
Proof. cbv zeta. split_and!; vm_compute; reflexivity. Qed.

(** What [html.append] leaves behind outside a fence. *)
Lemma emit_outside st fragment :
  in_code_block st = false ->
  emit st fragment
  = {| in_code_block := false; code_lines := code_lines st;
       html := html st ++ [fragment] |}.
Proof. unfold emit. by intros ->. Qed.

(** C3: a line for which [extract_toc] appends an entry is, when the body
    loop classifies it, rendered as a heading whose [id] attribute is the
    entry's [id]; that id is ["h-"] followed by the number with every dot
    replaced by a hyphen, and it is the target of the entry's link. *)
Theorem heading_id_matches_toc_id tst line e :
  toc (toc_line tst line) = toc tst ++ [e] ->
  id e = lit "h-" ++ replace dot (lit "-") (number e)
  /\ (forall st rest,
        in_code_block st = false ->
        step st line rest
        = ({| in_code_block := false; code_lines := code_lines st;
              html := html st
                      ++ [ lit "<h" ++ str_of_nat (level e + 1) ++ lit " id="
                             ++ [dquote] ++ id e ++ [dquote]
                             ++ lit " class=" ++ [dquote] ++ lit "heading level-"
                             ++ str_of_nat (level e) ++ [dquote] ++ lit ">"
                             ++ escape (strip line)
                             ++ lit "</h" ++ str_of_nat (level e + 1)
                             ++ lit ">" ] |},
           rest))
  /\ (exists link_rest,
        toc_link e
        = [nl] ++ lit "        <a href=" ++ [dquote] ++ lit "#" ++ id e
            ++ [dquote] ++ link_rest).
Proof.
  unfold toc_line.
  destruct (heading_re (strip line)) as [[num g2]|] eqn:Hre.
  2:{ intros H. apply (f_equal length) in H. rewrite length_app in H.
      simpl in H. lia. }
  destruct (line_ok _ _ && _) eqn:Hvalid; cbn [toc].
  2:{ intros H. apply (f_equal length) in H. rewrite length_app in H.
      simpl in H. lia. }
  intros [= <-]%app_inv_head. cbn [id number level].
  split_and!; [done | | by eexists].
  intros st rest Hst. rewrite (step_heading _ _ _ _ _ Hst Hre).
  apply andb_prop in Hvalid as [Hline _]. unfold line_ok in Hline.
  apply andb_prop in Hline as [Hline _]. apply andb_prop in Hline as [Htitle _].
  rewrite (heading_title_stripped _ _ _ Hre) in Htitle.
  rewrite Htitle, (emit_outside _ _ Hst). reflexivity.
Qed.

Lemma heading_id_matches_toc_id_witness :
  let e := {| id := lit "h-2-13"; number := lit "2.13";
              title := lit "Bean scopes"; level := 2 |} in
  id e = lit "h-" ++ replace dot (lit "-") (number e)
  /\ step initial (lit "  2.13.  Bean scopes ") []
     = ({| in_code_block := false; code_lines := [];
           html := [ lit "<h3 id=" ++ [dquote] ++ lit "h-2-13" ++ [dquote]
                       ++ lit " class=" ++ [dquote] ++ lit "heading level-2"
                       ++ [dquote] ++ lit ">2.13.  Bean scopes</h3>" ] |}, []).
Proof.
  assert (Hentry : toc (toc_line toc_initial (lit "  2.13.  Bean scopes "))
                   = toc toc_initial
                       ++ [ {| id := lit "h-2-13"; number := lit "2.13";
                               title := lit "Bean scopes"; level := 2 |} ])
    by (vm_compute; reflexivity).
  pose proof (heading_id_matches_toc_id _ _ _ Hentry) as (Hid & Hstep & _).
  split; [exact Hid|].
  rewrite (Hstep initial [] eq_refl). vm_compute. reflexivity.
Defined.



(** ** Brace-delimited code *)

Lemma collect_braces_cons bc l rest :
  (0 < bc)%Z ->
  collect_braces bc (l :: rest) =
    (l :: (collect_braces (bc + brace_delta l) rest).1.1,
     (collect_braces (bc + brace_delta l) rest).1.2,
     (collect_braces (bc + brace_delta l) rest).2).
Proof.
  intros H%Z.ltb_lt. simpl. rewrite H.
  by destruct (collect_braces _ rest) as [[more b] r].
Qed.

Lemma collect_braces_stop bc rest :
  (bc <= 0)%Z -> collect_braces bc rest = ([], bc, rest).
Proof.
  intros H. destruct rest as [|l rest]; [done|]. simpl.
  destruct (Z.ltb_spec 0 bc); [lia | done].
Qed.

(** C8: ["public void foo() {"], two lines that keep the running brace
    balance positive and bring it back to one, and a line ["}"] are collected
    into one code fragment, the balance being zero after the fourth line: the
    body appends to [html] the four lines joined by newlines, escaped (no
    angle bracket or quote is left, and un-escaping gives the lines back),
    between the tags of a code block.  A line that starts the brace rule, is
    the only line collected and leaves a balance other than zero is appended
    as a paragraph instead. *)
Theorem brace_block_example st l1 l2 rest :
  in_code_block st = false ->
  (0 <= brace_delta l1)%Z ->
  (brace_delta l1 + brace_delta l2 = 0)%Z ->
  let head := lit "public void foo() {" in
  let text := join [nl] [head; l1; l2; lit "}"] in
  brace_block head (l1 :: l2 :: lit "}" :: rest)
    = ([head; l1; l2; lit "}"], 0%Z, rest)
  /\ step st head (l1 :: l2 :: lit "}" :: rest)
     = ({| in_code_block := false; code_lines := code_lines st;
           html := html st
                   ++ [ lit "<pre><code>" ++ escape text ++ lit "</code></pre>" ] |},
        rest)
  /\ (forall x, x ∈ escape text ->
                x <> lt_sign /\ x <> gt_sign /\ x <> dquote /\ x <> squote)
  /\ unescape (escape text) = text
  /\ forall line lines balance after,
       is_fence line = false ->
       heading_re (strip line) = None ->
       is_code_start (strip line) = true ->
       brace_block line lines = ([line], balance, after) ->
       balance <> 0%Z ->
       step st line lines
       = ({| in_code_block := false; code_lines := code_lines st;
             html := html st ++ [ lit "<p>" ++ escape line ++ lit "</p>" ] |},
          after).
Proof.
  intros Hst H1 H2 head text.
  assert (Hblock : brace_block head (l1 :: l2 :: lit "}" :: rest)
                   = ([head; l1; l2; lit "}"], 0%Z, rest)).
  { unfold brace_block.
    change (brace_delta head) with 1%Z. cbn [Z.eqb andb].
    rewrite collect_braces_cons by lia.
    rewrite collect_braces_cons by lia.
    rewrite collect_braces_cons by lia.
    change (brace_delta (lit "}")) with (-1)%Z.
    rewrite collect_braces_stop by lia. cbn [fst snd app].
    do 2 f_equal. lia. }
  split_and!; [done | | | apply unescape_escape |].
  - rewrite step_code_start; [|done|by vm_compute..].
    rewrite Hblock, (emit_outside _ _ Hst). reflexivity.
  - intros x. rewrite escape_flat_map.
    intros (c & _ & Hx)%list_elem_of_In%in_flat_map.
    eapply escape_char_safe. apply list_elem_of_In. exact Hx.
  - intros line lines balance after Hf Hre Hstart Hb Hne.
    rewrite step_code_start by done. rewrite Hb. cbn [fst snd length].
    apply Z.eqb_neq in Hne. rewrite Hne, (emit_outside _ _ Hst). reflexivity.
Qed.

Lemma brace_block_example_witness :
  format_content_to_html
    (join [nl] [lit "public void foo() {"; lit "    if (a < b && ok) { run(); }";
                lit "    return 'x';"; lit "}"; lit "done"])
  = lit "<pre><code>public void foo() {" ++ [nl]
      ++ lit "    if (a &lt; b &amp;&amp; ok) { run(); }" ++ [nl]
      ++ lit "    return &#x27;x&#x27;;" ++ [nl]
      ++ lit "}</code></pre>" ++ [nl]
      ++ lit "<p>done</p>"
  /\ step initial (lit "public void foo() {") []
     = ({| in_code_block := false; code_lines := [];
           html := [ lit "<p>public void foo() {</p>" ] |}, []).
Proof.
  assert (H1 : (0 <= brace_delta (lit "    if (a < b && ok) { run(); }"))%Z)
    by (vm_compute; discriminate).
  assert (H2 : (brace_delta (lit "    if (a < b && ok) { run(); }")
                + brace_delta (lit "    return 'x';") = 0)%Z)
    by (vm_compute; reflexivity).
  pose proof (brace_block_example initial _ _ [lit "done"] eq_refl H1 H2)
    as (_ & Hstep & _ & _ & Hlone).
  split.
  - unfold format_content_to_html.
    assert (Hlines : split_lines
              (join [nl] [lit "public void foo() {";
                          lit "    if (a < b && ok) { run(); }";
                          lit "    return 'x';"; lit "}"; lit "done"])
            = [lit "public void foo() {"; lit "    if (a < b && ok) { run(); }";
               lit "    return 'x';"; lit "}"; lit "done"])
      by (vm_compute; reflexivity).
    rewrite Hlines, loop_cons, Hstep. vm_compute. reflexivity.
  - rewrite (Hlone _ [] 1%Z []); [|by vm_compute..|discriminate].
    vm_compute. reflexivity.
Defined.

(** ** The outline *)

Lemma toc_line_inv st line : toc_inv st -> toc_inv (toc_line st line).
Proof.
  intros [Hids Hnd]. rewrite toc_line_candidate.
  destruct (candidate line) as [[n t]|]; [|done].
  case_bool_decide as Hin; [done|].
  split; cbn [toc toc_ids].
  - intros m. rewrite map_app, elem_of_app, elem_of_union, elem_of_singleton.
    cbn. rewrite list_elem_of_singleton, Hids. tauto.
  - rewrite map_app. apply NoDup_app. split_and!; [done | | apply NoDup_singleton].
    intros m Hm [->|[]%elem_of_nil]%elem_of_cons. by apply Hin, Hids.
Qed.

Lemma toc_loop_inv lines : forall st, toc_inv st -> toc_inv (toc_loop st lines).
Proof.
  induction lines as [|l lines IH]; intros st H; [done|].
  apply IH. by apply toc_line_inv.
Qed.

Lemma toc_initial_inv : toc_inv toc_initial.
Proof.
  split; cbn; [|constructor].
  intros n. split; [by intros ?%not_elem_of_empty | by intros ?%not_elem_of_nil].
Qed.

(** Lines that are no candidate for the number [n] leave its entries alone. *)
Lemma toc_loop_other n lines : forall st,
  (forall l, l ∈ lines -> forall t, candidate l <> Some (n, t)) ->
  entries_numbered n (toc (toc_loop st lines)) = entries_numbered n (toc st)
  /\ (n ∈ toc_ids (toc_loop st lines) <-> n ∈ toc_ids st).
Proof.
  induction lines as [|l lines IH]; intros st H; [done|].
  cbn [toc_loop foldl]. fold (toc_loop (toc_line st l) lines).
  destruct (IH (toc_line st l)) as [-> ->].
  { intros l' Hl'. apply H. by right. }
  rewrite toc_line_candidate.
  destruct (candidate l) as [[m t]|] eqn:Hc; [|done].
  case_bool_decide; [done|]. cbn [toc toc_ids].
  assert (m <> n) by (intros ->; by eapply H; [left|]).
  rewrite filter_app, filter_cons_False, filter_nil, app_nil_r by done.
  split; [done | set_solver].
Qed.

(** Once a number is in [toc_ids], no entry is added for it. *)
Lemma toc_loop_seen n lines : forall st,
  n ∈ toc_ids st ->
  entries_numbered n (toc (toc_loop st lines)) = entries_numbered n (toc st).
Proof.
  induction lines as [|l lines IH]; intros st H; [done|].
  cbn [toc_loop foldl]. fold (toc_loop (toc_line st l) lines).
  rewrite toc_line_candidate.
  destruct (candidate l) as [[m t]|] eqn:Hc; [|by apply IH].
  case_bool_decide as Hm; [by apply IH|].
  rewrite IH by (cbn; set_solver). cbn [toc].
  assert (m <> n) by (by intros ->).
  by rewrite filter_app, filter_cons_False, filter_nil, app_nil_r.
Qed.

(** C5: the numbers in the outline are pairwise different; and when two lines
    that pass the checks on the line itself carry the same number, the
    outline has exactly one entry for that number, made from the first such
    line, with that line's title. *)
Theorem toc_numbers_unique content :
  NoDup (List.map number (extract_toc content))
  /\ forall before l1 later l2 n t1 t2,
       split_lines content = before ++ l1 :: later ->
       (forall l, l ∈ before -> forall t, candidate l <> Some (n, t)) ->
       candidate l1 = Some (n, t1) ->
       l2 ∈ later ->
       candidate l2 = Some (n, t2) ->
       entries_numbered n (extract_toc content)
       = [ {| id := toc_id n; number := n; title := t1;
              level := length (split dot n) |} ].
Proof.
  split.
  - apply (toc_loop_inv _ _ toc_initial_inv).
  - intros before l1 later l2 n t1 t2 Hlines Hbefore Hc1 _ _.
    unfold extract_toc, toc_loop. rewrite Hlines, foldl_app. cbn [foldl].
    fold (toc_loop toc_initial before).
    destruct (toc_loop_other n before toc_initial Hbefore) as [Hnone Hfresh].
    set (st := toc_loop toc_initial before) in *.
    fold (toc_loop (toc_line st l1) later).
    assert (Hnot : n ∉ toc_ids st).
    { rewrite Hfresh. apply not_elem_of_empty. }
    rewrite toc_line_candidate, Hc1, bool_decide_eq_false_2 by done.
    rewrite toc_loop_seen by (cbn; set_solver). cbn [toc].
    rewrite filter_app, Hnone, filter_cons_True, filter_nil by done.
    reflexivity.
Qed.

Lemma toc_numbers_unique_witness :
  entries_numbered (lit "2.1")
    (extract_toc (join [nl] [lit "2. Overview"; lit "2.1. First Title";
                             lit "text"; lit "2.1. Second Title"]))
  = [ {| id := lit "h-2-1"; number := lit "2.1"; title := lit "First Title";
         level := 2 |} ].
Proof.
  pose proof (toc_numbers_unique
    (join [nl] [lit "2. Overview"; lit "2.1. First Title";
                lit "text"; lit "2.1. Second Title"])) as [_ H].
  apply (H [lit "2. Overview"] (lit "2.1. First Title")
           [lit "text"; lit "2.1. Second Title"] (lit "2.1. Second Title")
           (lit "2.1") (lit "First Title") (lit "Second Title")).
  - vm_compute. reflexivity.
  - intros l ->%list_elem_of_singleton t. vm_compute. discriminate.
  - vm_compute. reflexivity.
  - right. left.
  - vm_compute. reflexivity.
Defined.

(** ** The shape of a heading line *)

Lemma run_of_cons p (a : str) : run_of p a -> exists c t, a = c :: t /\ p c = true.
Proof.
  intros [Hne Hall]. destruct a as [|c t]; [done|].
  inversion Hall; subst. by eauto.
Qed.

Lemma join_run_first p sep (n : str) ns :
  run_of p n -> exists c t, join sep (n :: ns) = c :: t /\ p c = true.
Proof.
  intros (c & t & -> & Hc)%run_of_cons.
  destruct ns; simpl; by eauto.
Qed.

(** C4, as stated, fails: ["1.<TAB>ABCD"] is matched by the pattern, in
    [extract_toc] and in the body alike, but a tab is not a single space. *)
Lemma tab_after_number_is_heading :
  ~ spec_heading_rule
  /\ heading_re (strip (lit "1." ++ [tab] ++ lit "ABCD"))
     = Some (lit "1", lit "ABCD")
  /\ extract_toc (lit "1." ++ [tab] ++ lit "ABCD")
     = [ {| id := lit "h-1"; number := lit "1"; title := lit "ABCD"; level := 1 |} ]
  /\ format_content_to_html (lit "1." ++ [tab] ++ lit "ABCD")
     = heading_fragment 1 (lit "1") (lit "1." ++ [tab] ++ lit "ABCD").
Proof.
  split_and!; [|by vm_compute..].
  intros Hrule.
  destruct (Hrule (lit "1." ++ [tab] ++ lit "ABCD") (lit "1." ++ [tab] ++ lit "ABCD"))
    as [Hshape _]; [by left|].
  destruct Hshape as (nums & rest & Hlen & Hnums & _ & E).
  { by vm_compute; eauto. }
  assert (Hs : strip (lit "1." ++ [tab] ++ lit "ABCD")
               = [49; dot; tab; 65; 66; 67; 68]) by (by vm_compute).
  rewrite Hs in E. clear Hs.
  destruct nums as [|n1 nums]; [simpl in Hlen; lia|].
  inversion Hnums as [|? ? Hn1 Hrest]; subst.
  destruct (run_of_cons _ _ Hn1) as (c1 & t1 & -> & _).
  destruct Hn1 as [_ Hall]. inversion Hall as [|? ? _ Ht1]; subst.
  destruct t1 as [|c2 t1].
  - destruct nums as [|n2 nums].
    + simpl in E. discriminate.
    + inversion Hrest as [|? ? Hn2 _]; subst.
      destruct (join_run_first is_decimal [dot] n2 nums Hn2) as (c & t & Ej & Hc).
      rewrite join_cons, Ej in E. simpl in E.
      inversion E; subst. by vm_compute in Hc.
  - inversion Ht1 as [|? ? Hc2 _]; subst.
    destruct nums; simpl in E; inversion E; subst; by vm_compute in Hc2.
Qed.

Lemma strip_no_nl (line : str) : nl ∉ line -> nl ∉ strip line.
Proof.
  intros H Hin. apply H. destruct (strip_factor line) as (a & b & ->).
  rewrite !elem_of_app. tauto.
Qed.

Lemma upto2_join (n1 : str) reps :
  upto2_lang dot_digits_lang reps ->
  exists nums, (length nums <= 2)%nat /\ Forall (run_of is_decimal) nums /\
               n1 ++ reps = join [dot] (n1 :: nums).
Proof.
  intros [->|[(d & -> & Hd)|(a1 & a2 & -> & (d1 & -> & Hd1) & (d2 & -> & Hd2))]].
  - exists []. rewrite app_nil_r. simpl. split_and!; [lia | constructor | done].
  - exists [d]. simpl. split_and!; [lia | by apply Forall_singleton | done].
  - exists [d1; d2]. simpl.
    split_and!; [lia | repeat (apply List.Forall_cons; [done|]); constructor | done].
Qed.

Lemma join_upto2 (n1 : str) nums :
  (length nums <= 2)%nat -> Forall (run_of is_decimal) nums ->
  exists reps, upto2_lang dot_digits_lang reps /\
               join [dot] (n1 :: nums) = n1 ++ reps.
Proof.
  intros Hlen Hall. destruct nums as [|d1 [|d2 [|? ?]]]; [| | |simpl in Hlen; lia].
  - exists []. split; [by left | by rewrite app_nil_r].
  - inversion Hall; subst. exists (dot :: d1). split; [|done].
    right; left. by exists d1.
  - inversion Hall as [|? ? H1 Hall']; subst. inversion Hall'; subst.
    exists ((dot :: d1) ++ (dot :: d2)). split.
    + right; right. exists (dot :: d1), (dot :: d2).
      split_and!; [done | by exists d1 | by exists d2].
    + done.
Qed.

(** C4 (amended): on a line of the input, trimmed, the pattern matches
    exactly the strings made of one to three runs of digits separated by
    dots, a period, one or more white-space characters and a non-empty
    rest. *)
Theorem heading_pattern_shape content line :
  line ∈ split_lines content ->
  is_Some (heading_re (strip line)) <-> heading_shape (strip line).
Proof.
  intros Hline.
  assert (Hnl : nl ∉ strip line) by (by eapply strip_no_nl, split_no_sep).
  rewrite heading_re_is_Some. unfold heading_shape. split.
  - intros (d & reps & ws & body & r3 & E & Hd & Hreps & Hws & [Hne _] & Hend).
    destruct (upto2_join d reps Hreps) as (nums & Hlen & Hnums & Ej).
    apply at_end_inv in Hend as [->| ->].
    2:{ exfalso. apply Hnl. rewrite E, !elem_of_app.
        do 5 right. by left. }
    exists (d :: nums), ws, body. rewrite app_nil_r in E.
    split_and!; [simpl; lia | simpl; lia | by constructor | done | done |].
    by rewrite <- Ej, <- (assoc_L (++)).
  - intros (nums & ws & rest & Hlen & Hnums & Hws & Hne & E).
    destruct nums as [|n1 nums]; [simpl in Hlen; lia|].
    inversion Hnums as [|? ? Hn1 Hrest]; subst.
    destruct (join_upto2 n1 nums) as (reps & Hreps & Ej);
      [simpl in Hlen; lia | done |].
    exists n1, reps, ws, rest, [].
    rewrite Ej, <- (assoc_L (++)) in E. rewrite app_nil_r.
    split_and!; [done..|]. unfold tail_lang.
    split_and!; [done | | done]. split; [done|].
    apply Forall_forall. intros c Hc. unfold any_char.
    destruct (N.eqb_spec c nl) as [->|]; [|done].
    exfalso. apply Hnl. rewrite E, !elem_of_app. do 4 right. done.
Qed.

Lemma heading_pattern_shape_witness :
  is_Some (heading_re (strip (lit "  1.2.3." ++ [tab; space] ++ lit "Bean scopes  ")))
  <-> heading_shape (strip (lit "  1.2.3." ++ [tab; space] ++ lit "Bean scopes  ")).
Proof.
  apply (heading_pattern_shape
           (join [nl] [lit "intro";
                       lit "  1.2.3." ++ [tab; space] ++ lit "Bean scopes  "])).
  assert (Hlines : split_lines
            (join [nl] [lit "intro";
                        lit "  1.2.3." ++ [tab; space] ++ lit "Bean scopes  "])
          = [lit "intro"; lit "  1.2.3." ++ [tab; space] ++ lit "Bean scopes  "])
    by (vm_compute; reflexivity).
  rewrite Hlines. right. left.
Defined.

(** ** Coverage of the input by the cursor *)

Lemma collect_braces_split bc rest :
  rest = (collect_braces bc rest).1.1 ++ (collect_braces bc rest).2.
Proof.
  revert bc; induction rest as [|l rest IH]; intros bc; [done|]. simpl.
  destruct (0 <? bc)%Z; [|done].
  specialize (IH (bc + brace_delta l)%Z).
  destruct (collect_braces _ rest) as [[more b] r]. simpl in *. by f_equal.
Qed.

Lemma brace_block_split line rest :
  line :: rest = (brace_block line rest).1.1 ++ (brace_block line rest).2.
Proof.
  unfold brace_block.
  destruct rest as [|next rest'].
  - done.
  - destruct (_ && _ && _).
    + pose proof (collect_braces_split (brace_delta next) rest') as H.
      destruct (collect_braces _ rest') as [[more b] r]. simpl in *.
      by rewrite H at 1.
    + pose proof (collect_braces_split (brace_delta line) (next :: rest')) as H.
      destruct (collect_braces _ (next :: rest')) as [[more b] r]. simpl in *.
      by rewrite H at 1.
Qed.

Lemma brace_block_head line rest :
  exists more, (brace_block line rest).1.1 = line :: more.
Proof.
  unfold brace_block.
  destruct rest as [|next rest']; [|destruct (_ && _ && _)];
    destruct (collect_braces _ _) as [[? ?] ?]; by eexists.
Qed.

Lemma collect_indented_split rest :
  rest = (collect_indented rest).1 ++ (collect_indented rest).2.
Proof.
  induction rest as [|l rest IH]; [done|]. simpl.
  destruct (_ || _); [|done].
  destruct (match rest with [] => false | _ => _ end); [done|].
  destruct (collect_indented rest) as [more r]. simpl in *. by f_equal.
Qed.

(** Every iteration consumes the current line and possibly some lines that
    follow it, and leaves the rest of the input as it is. *)
Lemma step_consumes st line rest :
  exists more, line :: rest = (line :: more) ++ (step st line rest).2.
Proof.
  unfold step.
  repeat match goal with
         | |- context [if ?b then _ else _] => destruct b
         | |- context [match heading_re ?s with _ => _ end] =>
             destruct (heading_re s) as [[? ?]|]
         end; cbn [snd]; try (by exists []).
  - pose proof (brace_block_split line rest) as H.
    destruct (brace_block_head line rest) as [more Hmore].
    destruct (brace_block line rest) as [[cb bc] r]. cbn [fst snd] in *.
    subst cb. exists more. destruct (_ || _); exact H.
  - pose proof (collect_indented_split rest) as H.
    destruct (collect_indented rest) as [more r]. cbn [fst snd] in *.
    exists more. simpl. by f_equal.
Qed.

Lemma blocks_cons st line rest :
  blocks st (line :: rest) =
    (take (S (length rest) - length (step st line rest).2) (line :: rest),
     drop (length (html st)) (html (step st line rest).1))
    :: blocks (step st line rest).1 (step st line rest).2.
Proof. by simp blocks. Qed.

(** The cursor never skips a line and never goes back: the spans of the
    iterations are non-empty and, put end to end, they are the input; and the
    output is made of the fragments of the iterations, in order.  This does
    not say that every span has a fragment. *)
Lemma blocks_cover ls : forall st,
  concat (List.map fst (blocks st ls)) = ls
  /\ Forall (fun b => b.1 <> []) (blocks st ls)
  /\ loop st ls = html st ++ concat (List.map snd (blocks st ls)).
Proof.
  induction ls as [ls IH] using (induction_ltof1 _ (@length str)).
  unfold ltof in IH. intros st. destruct ls as [|line rest].
  - simp blocks. rewrite loop_nil, app_nil_r. by split_and!.
  - rewrite blocks_cons, loop_cons. cbn [List.map concat fst snd].
    destruct (step_consumes st line rest) as [more Hmore].
    destruct (step_html st line rest) as [frags Hfrags].
    destruct (IH (step st line rest).2) with (st := (step st line rest).1)
      as (IH1 & IH2 & IH3).
    { pose proof (step_length st line rest). simpl. lia. }
    assert (Hspan : take (S (length rest) - length (step st line rest).2)
                         (line :: rest) = line :: more).
    { pose proof (f_equal length Hmore) as Hlen.
      rewrite length_app in Hlen. cbn [length] in Hlen.
      replace (S (length rest) - length (step st line rest).2)%nat
        with (S (length more)) by lia.
      transitivity (take (S (length more))
                      ((line :: more) ++ (step st line rest).2));
        [by f_equal | exact (take_app_length (line :: more) _)]. }
    rewrite Hspan, IH1, IH3, Hfrags, drop_app_length.
    split_and!; [by rewrite <- Hmore | by constructor | by rewrite (assoc_L (++))].
Qed.

(** C1: coverage fails on a fence that is never closed: the loop consumes the marker
    and the line after it, one by one, and appends no fragment for either;
    the output is empty, so no fragment covers these two lines. *)
Theorem unterminated_fence_breaks_coverage :
  let content := join [nl] [lit "```"; lit "lost"] in
  split_lines content = [lit "```"; lit "lost"]
  /\ blocks initial (split_lines content)
     = [ ([lit "```"], []); ([lit "lost"], []) ]
  /\ loop initial (split_lines content) = []
  /\ format_content_to_html content = [].
Proof. cbv zeta. split_and!; vm_compute; reflexivity. Qed.

(** * Further properties of the code *)

(** ** The groups of a match *)

Section ConsumesFacts.
Context {R : Type}.

Lemma plus_consumes p : consumes (R:=R) (plus p) (run_of p).
Proof.
  intros k s r H.
  destruct (plus_first _ _ _ _ H) as (a & b & -> & Hne & Ha & Hk & _).
  exists a, b. by split_and!.
Qed.

Lemma dot_digits_consumes : consumes (R:=R) dot_digits dot_digits_lang.
Proof.
  intros k s r. unfold dot_digits, one.
  destruct s as [|c s]; [done|].
  destruct (N.eqb_spec dot c) as [<-|]; [|done].
  intros (d & b & -> & Hd & Hk)%plus_consumes.
  exists (dot :: d), b. split_and!; [done | by exists d | done].
Qed.

Lemma upto2_consumes x L :
  consumes (R:=R) x L -> consumes (upto2 x) (upto2_lang L).
Proof.
  intros Hx k s r. unfold upto2, upto2_lang.
  destruct (x _ s) as [r'|] eqn:E.
  - intros [= <-]. apply Hx in E as (a1 & b1 & -> & Ha1 & E).
    destruct (x k b1) as [r''|] eqn:E2.
    + injection E as <-. apply Hx in E2 as (a2 & b2 & -> & Ha2 & E2).
      exists (a1 ++ a2), b2. rewrite <- (assoc_L (++)).
      split_and!; [done | | done]. right; right. by exists a1, a2.
    + exists a1, b1. split_and!; [done | by right; left | done].
  - intros Hk. exists [], s. split_and!; [done | by left | done].
Qed.
End ConsumesFacts.

(** What the two groups of a match are: the input is the number, a period,
    white space, group 2 and possibly a final newline. *)
Lemma heading_re_groups s number g2 :
  heading_re s = Some (number, g2) ->
  exists nums ws r3,
    numeric_path number nums /\ tail_lang ws g2 r3 /\
    s = number ++ [dot] ++ ws ++ g2 ++ r3.
Proof.
  unfold heading_re. intros H.
  apply plus_consumes in H as (d & b & -> & Hd & H).
  apply (upto2_consumes _ _ dot_digits_consumes) in H as (reps & r1 & -> & Hreps & H).
  unfold after_number, one in H. destruct r1 as [|c r1]; [done|].
  destruct (N.eqb_spec dot c) as [<-|]; [|done].
  apply plus_consumes in H as (ws & r2 & -> & Hws & H).
  apply plus_consumes in H as (body & r3 & -> & Hbody & H).
  destruct (at_end r3) eqn:Hend; [|done].
  injection H as <- <-.
  rewrite between_app.
  rewrite (assoc_L (++) d reps), between_app.
  destruct (upto2_join d reps Hreps) as (nums & Hlen & Hnums & Ej).
  exists (d :: nums), ws, r3. split_and!.
  - split_and!; [simpl; lia | simpl; lia | by constructor | done].
  - done.
  - done.
Qed.

Lemma decimal_not_dot c : is_decimal c = true -> c <> dot.
Proof. intros H ->. by vm_compute in H. Qed.

Lemma split_run_of c (n : str) :
  c ∉ n -> split c n = [n].
Proof.
  induction n as [|x n IH]; [done|]. intros Hc. simpl.
  destruct (N.eqb_spec x c) as [->|_]; [exfalso; apply Hc; by left|].
  rewrite IH; [done|]. intros ?. apply Hc. by right.
Qed.

Lemma split_app_sep c (a b : str) :
  split c (a ++ c :: b) = split c a ++ split c b.
Proof.
  induction a as [|x a IH]; simpl.
  - by rewrite N.eqb_refl.
  - destruct (x =? c); [by rewrite IH|]. rewrite IH.
    destruct (split_cons c a) as (f & fs & ->). done.
Qed.

(** [c.join(parts).split(c) == parts] when no part contains [c]. *)
Lemma split_join c (parts : list str) :
  parts <> [] -> Forall (fun p => c ∉ p) parts ->
  split c (join [c] parts) = parts.
Proof.
  intros Hne Hall. induction Hall as [|p ps Hp Hps IH]; [done|].
  destruct ps as [|q ps]; [by apply split_run_of|].
  rewrite join_cons. change (p ++ [c] ++ join [c] (q :: ps))
    with (p ++ c :: join [c] (q :: ps)).
  rewrite split_app_sep, IH by done. by rewrite split_run_of.
Qed.

Lemma run_no_dot (n : str) : run_of is_decimal n -> dot ∉ n.
Proof.
  intros [_ Hall] Hin. rewrite Forall_forall in Hall.
  by apply (decimal_not_dot _ (Hall _ Hin)).
Qed.

Lemma numeric_path_level number nums :
  numeric_path number nums -> split dot number = nums.
Proof.
  intros (Hlen & Hall & ->). apply split_join.
  - intros ->. simpl in Hlen. lia.
  - eapply Forall_impl; [exact Hall|]. apply run_no_dot.
Qed.

Lemma escape_id_on s :
  Forall (fun c => escape_char c = [c]) s -> escape s = s.
Proof.
  rewrite escape_flat_map. induction 1 as [|c s Hc _ IH]; [done|].
  simpl. by rewrite Hc, IH.
Qed.

Lemma escape_char_decimal c : is_decimal c = true -> escape_char c = [c].
Proof.
  intros H. unfold escape_char.
  repeat match goal with
         | |- context [?x =? ?y] =>
             destruct (N.eqb_spec x y) as [->|_]; [by vm_compute in H|]
         end.
  done.
Qed.

Lemma numeric_path_chars number nums :
  numeric_path number nums ->
  Forall (fun c => is_decimal c = true \/ c = dot) number.
Proof.
  intros (_ & Hall & ->). induction Hall as [|n ns [_ Hn] Hns IH]; [constructor|].
  assert (Hn' : Forall (fun c => is_decimal c = true \/ c = dot) n).
  { eapply Forall_impl; [exact Hn|]. by left. }
  destruct ns as [|m ns]; [done|].
  rewrite join_cons. rewrite !Forall_app. split_and!; [done | | done].
  apply Forall_singleton. by right.
Qed.

(** ** Lines that look like enumerations *)

Lemma enum_prefixes_shape :
  Forall (fun p => exists d, p = [d; rparen]) enum_prefixes.
Proof. vm_compute. repeat (constructor; [by eexists|]). constructor. Qed.

Lemma numeric_path_head number nums :
  numeric_path number nums ->
  exists c t, number = c :: t /\ is_decimal c = true.
Proof.
  intros (Hlen & Hall & ->). destruct nums as [|n ns]; [simpl in Hlen; lia|].
  inversion Hall; subst. by eapply join_run_first.
Qed.

(** The second character of a matched line is a digit or a dot. *)
Lemma heading_re_second s number g2 :
  heading_re s = Some (number, g2) ->
  exists c1 c2 t, s = c1 :: c2 :: t /\ (is_decimal c2 = true \/ c2 = dot).
Proof.
  intros (nums & ws & r3 & Hpath & _ & ->)%heading_re_groups.
  pose proof (numeric_path_chars _ _ Hpath) as Hchars.
  destruct (numeric_path_head _ _ Hpath) as (c1 & t & -> & _).
  destruct t as [|c2 t].
  - exists c1, dot. eexists. split; [done | by right].
  - inversion Hchars as [|? ? _ Ht]; subst. inversion Ht; subst.
    exists c1, c2. by eexists.
Qed.

(** A line that matches the heading pattern never starts with a digit
    and a closing parenthesis, so the fourth conjunct of [is_valid] never
    decides anything. *)
Lemma heading_re_no_enum_prefix s number g2 :
  heading_re s = Some (number, g2) ->
  existsb (fun p => startswith p s) enum_prefixes = false.
Proof.
  intros (c1 & c2 & t & -> & Hc2)%heading_re_second.
  apply not_true_is_false. intros (p & Hp & Hs)%existsb_exists.
  pose proof enum_prefixes_shape as Hshape.
  rewrite List.Forall_forall in Hshape. destruct (Hshape p Hp) as [d ->].
  cbn [startswith] in Hs.
  apply andb_prop in Hs as [_ Hs]. apply andb_prop in Hs as [Hs _].
  apply N.eqb_eq in Hs. subst c2.
  destruct Hc2 as [H|H]; [by vm_compute in H | discriminate].
Qed.

(** What [extract_toc] asks of a line, apart from the number being new: the
    body's two checks and the check for ["http"]. *)
Lemma candidate_spec line n t :
  candidate line = Some (n, t) <->
  heading_re (strip line) = Some (n, t) /\ title_ok t = true
  /\ startswith (lit "http") t = false.
Proof.
  unfold candidate.
  destruct (heading_re (strip line)) as [[n' g2]|] eqn:Hre; [|naive_solver].
  rewrite (heading_title_stripped _ _ _ Hre). unfold line_ok.
  rewrite (heading_re_no_enum_prefix _ _ _ Hre). cbn [negb].
  rewrite andb_true_r. split.
  - destruct (title_ok g2) eqn:Hok, (startswith (lit "http") g2) eqn:Hhttp;
      cbn; intros [= <- <-]; done.
  - intros ([= <- <-] & -> & ->). done.
Qed.

(** The fragments of a line that does not match the pattern are no heading
    elements. *)
Lemma step_without_match st line rest :
  heading_re (strip line) = None ->
  exists frags,
    html (step st line rest).1 = html st ++ frags
    /\ Forall (fun f => startswith (lit "<h") f = false) frags.
Proof.
  intros Hre. unfold step, emit. rewrite Hre.
  repeat match goal with
         | |- context [if ?b then _ else _] => destruct b
         | |- context [let '(_, _) := ?x in _] => destruct x as [[? ?] ?]
         | |- context [let '(_, _) := ?x in _] => destruct x as [? ?]
         end; cbn [html fst];
    first [ by eexists; split; [reflexivity | by repeat constructor]
          | exists []; split; [by rewrite app_nil_r | constructor] ].
Qed.

(** X1: a line that starts with a digit and a closing parenthesis does not
    match the heading pattern: it adds nothing to the outline, whatever the
    state, and none of the fragments the body makes of it is a heading
    element. *)
Theorem enumeration_never_heading line :
  existsb (fun p => startswith p (strip line)) enum_prefixes = true ->
  heading_re (strip line) = None
  /\ (forall tst, toc_line tst line = tst)
  /\ forall st rest,
       exists frags,
         html (step st line rest).1 = html st ++ frags
         /\ Forall (fun f => startswith (lit "<h") f = false) frags.
Proof.
  intros Henum.
  assert (Hre : heading_re (strip line) = None).
  { destruct (heading_re (strip line)) as [[n g2]|] eqn:Hre; [|done].
    by rewrite (heading_re_no_enum_prefix _ _ _ Hre) in Henum. }
  split_and!; [done | |].
  - intros tst. unfold toc_line. by rewrite Hre.
  - intros st rest. by apply step_without_match.
Qed.

Lemma enumeration_never_heading_witness :
  extract_toc (lit "1) do the thing") = []
  /\ format_content_to_html (lit "1) do the thing")
     = p_fragment (lit "1) do the thing").
Proof.
  assert (Henum : existsb (fun p => startswith p (strip (lit "1) do the thing")))
                    enum_prefixes = true) by (vm_compute; reflexivity).
  pose proof (enumeration_never_heading _ Henum) as (_ & Htoc & _).
  assert (Hlines : split_lines (lit "1) do the thing") = [lit "1) do the thing"])
    by (vm_compute; reflexivity).
  split.
  - unfold extract_toc. rewrite Hlines. cbn [toc_loop foldl]. by rewrite Htoc.
  - vm_compute. reflexivity.
Defined.

(** ** The outline as a whole *)

Lemma toc_line_prefix st line : toc st `prefix_of` toc (toc_line st line).
Proof.
  rewrite toc_line_candidate.
  destruct (candidate line) as [[n t]|]; [|done].
  case_bool_decide; [done|]. by apply prefix_app_r.
Qed.

Lemma toc_loop_prefix lines : forall st,
  toc st `prefix_of` toc (toc_loop st lines).
Proof.
  induction lines as [|l lines IH]; intros st; [done|].
  cbn [toc_loop foldl]. fold (toc_loop (toc_line st l) lines).
  etrans; [apply toc_line_prefix | apply IH].
Qed.

(** Every entry that the loop adds is made from a line that passes the
    checks. *)
Lemma toc_loop_entries lines : forall st e,
  e ∈ toc (toc_loop st lines) ->
  e ∈ toc st
  \/ exists line, line ∈ lines /\ candidate line = Some (number e, title e)
                  /\ e = entry_of (number e) (title e).
Proof.
  induction lines as [|l lines IH]; intros st e He; [by left|].
  cbn [toc_loop foldl] in He. fold (toc_loop (toc_line st l) lines) in He.
  apply IH in He as [He|(line & Hl & Hc & Hshape)].
  2:{ right. exists line. split_and!; [by right | done | done]. }
  rewrite toc_line_candidate in He.
  destruct (candidate l) as [[n t]|] eqn:Hc; [|by left].
  case_bool_decide; [by left|]. cbn [toc] in He.
  apply elem_of_app in He as [He|He%list_elem_of_singleton]; [by left|].
  subst e. cbn [number title].
  right. exists l. split_and!; [by left | done | done].
Qed.

(** Every line that passes the checks has its number in the outline. *)
Lemma toc_loop_complete lines : forall st line n t,
  toc_inv st -> line ∈ lines -> candidate line = Some (n, t) ->
  n ∈ List.map number (toc (toc_loop st lines)).
Proof.
  induction lines as [|l lines IH]; intros st line n t Hinv Hl Hc.
  { by apply elem_of_nil in Hl. }
  cbn [toc_loop foldl]. fold (toc_loop (toc_line st l) lines).
  apply elem_of_cons in Hl as [->|Hl].
  2:{ eapply IH; [by apply toc_line_inv | done..]. }
  assert (Hn : n ∈ List.map number (toc (toc_line st l))).
  { rewrite toc_line_candidate, Hc. destruct Hinv as [Hids _].
    case_bool_decide as Hin; [by apply Hids|].
    cbn [toc]. rewrite map_app, elem_of_app. right. by left. }
  destruct (toc_loop_prefix lines (toc_line st l)) as [k ->].
  rewrite map_app, elem_of_app. by left.
Qed.

(** X2: a number is in the outline exactly when some line of the input
    matches the pattern with that number and has a title of at least four
    characters, without denylisted keyword and not starting with ["http"]. *)
Theorem toc_numbers_characterised content n :
  n ∈ List.map number (extract_toc content) <->
  exists line title,
    line ∈ split_lines content
    /\ heading_re (strip line) = Some (n, title)
    /\ title_ok title = true
    /\ startswith (lit "http") title = false.
Proof.
  unfold extract_toc. split.
  - intros (e & -> & He)%list_elem_of_fmap.
    apply toc_loop_entries in He as [He|(line & Hl & Hc & _)].
    { by apply elem_of_nil in He. }
    apply candidate_spec in Hc as (Hre & Hok & Hhttp).
    exists line, (title e). split_and!; done.
  - intros (line & t & Hl & Hc).
    apply candidate_spec in Hc.
    exact (toc_loop_complete _ _ line n t toc_initial_inv Hl Hc).
Qed.

Lemma escape_toc_id number nums :
  numeric_path number nums -> escape (toc_id number) = toc_id number.
Proof.
  intros Hchars%numeric_path_chars. apply escape_id_on.
  unfold toc_id. apply Forall_app. split; [by repeat constructor|].
  induction Hchars as [|c s Hc _ IH]; [constructor|].
  cbn [replace flat_map]. fold (replace dot (lit "-") s).
  apply Forall_app. split; [|exact IH].
  destruct Hc as [Hc| ->].
  - rewrite (proj2 (N.eqb_neq c dot) (decimal_not_dot _ Hc)).
    apply Forall_singleton. by apply escape_char_decimal.
  - rewrite N.eqb_refl. by repeat constructor.
Qed.

(** X3: every entry of the outline has a number made of one to three runs of
    digits joined by dots, a level that is the number of these runs, hence 1,
    2 or 3, and a title of at least four characters; the number and the id
    contain no character that [escape] would change, so writing them into
    the links unescaped is harmless. *)
Theorem toc_entry_shape content e :
  e ∈ extract_toc content ->
  exists nums,
    numeric_path (number e) nums
    /\ level e = length nums
    /\ (1 <= level e <= 3)%nat
    /\ id e = toc_id (number e)
    /\ (4 <= length (title e))%nat
    /\ escape (number e) = number e
    /\ escape (id e) = id e.
Proof.
  unfold extract_toc. intros He.
  apply toc_loop_entries in He as [He|(line & _ & Hc & ->)].
  { by apply elem_of_nil in He. }
  cbn [number title id level entry_of] in *.
  set (n := number e) in *. set (t := title e) in *.
  apply candidate_spec in Hc as (Hre & Hok & _).
  destruct (heading_re_groups _ _ _ Hre) as (nums & _ & _ & Hpath & _).
  exists nums. pose proof (numeric_path_level _ _ Hpath) as Hsplit.
  destruct Hpath as (Hlen & Hall & Hn).
  unfold entry_of. cbn [number title id level].
  split_and!.
  - done.
  - by rewrite Hsplit.
  - rewrite Hsplit. lia.
  - rewrite Hsplit. lia.
  - done.
  - unfold title_ok in Hok. apply andb_prop in Hok as [Hok _].
    by apply Nat.leb_le in Hok.
  - apply escape_id_on. eapply Forall_impl.
    + by apply (numeric_path_chars n nums).
    + intros c [Hc| ->]; [by apply escape_char_decimal | done].
  - by apply (escape_toc_id n nums).
Qed.

Lemma toc_entry_shape_witness :
  exists nums,
    numeric_path (lit "2.13") nums /\ 2%nat = length nums
    /\ (1 <= 2 <= 3)%nat /\ lit "h-2-13" = toc_id (lit "2.13")
    /\ (4 <= length (lit "Bean scopes"))%nat
    /\ escape (lit "2.13") = lit "2.13"
    /\ escape (lit "h-2-13") = lit "h-2-13".
Proof.
  apply (toc_entry_shape (join [nl] [lit "intro"; lit "2.13. Bean scopes"])
           {| id := lit "h-2-13"; number := lit "2.13";
              title := lit "Bean scopes"; level := 2 |}).
  assert (Htoc : extract_toc (join [nl] [lit "intro"; lit "2.13. Bean scopes"])
                 = [ {| id := lit "h-2-13"; number := lit "2.13";
                        title := lit "Bean scopes"; level := 2 |} ])
    by (vm_compute; reflexivity).
  rewrite Htoc. left.
Defined.

Lemma toc_numbers_characterised_witness :
  lit "2.13" ∈ List.map number
                 (extract_toc (join [nl] [lit "intro"; lit "2.13. Bean scopes"])).
Proof.
  apply toc_numbers_characterised.
  exists (lit "2.13. Bean scopes"), (lit "Bean scopes").
  assert (Hlines : split_lines (join [nl] [lit "intro"; lit "2.13. Bean scopes"])
                   = [lit "intro"; lit "2.13. Bean scopes"])
    by (vm_compute; reflexivity).
  rewrite Hlines. split_and!; [by right; left | by vm_compute..].
Defined.

(** X4: text appended after a newline adds entries at the end of the outline
    and changes none: the outline of the first part is a prefix of the
    outline of the whole. *)
Theorem toc_extends_with_input c1 c2 :
  extract_toc c1 `prefix_of` extract_toc (c1 ++ [nl] ++ c2).
Proof.
  unfold extract_toc, split_lines.
  change (c1 ++ [nl] ++ c2) with (c1 ++ nl :: c2).
  rewrite split_app_sep. unfold toc_loop. rewrite foldl_app.
  apply toc_loop_prefix.
Qed.

(** Lines whose numbers are all in [toc_ids] change nothing. *)
Lemma toc_loop_again lines : forall st,
  (forall line n t, line ∈ lines -> candidate line = Some (n, t) ->
                    n ∈ toc_ids st) ->
  toc_loop st lines = st.
Proof.
  induction lines as [|l lines IH]; intros st H; [done|].
  cbn [toc_loop foldl]. fold (toc_loop (toc_line st l) lines).
  assert (Hl : toc_line st l = st).
  { rewrite toc_line_candidate.
    destruct (candidate l) as [[n t]|] eqn:Hc; [|done].
    rewrite bool_decide_eq_true_2; [done|]. eapply H; [by left | done]. }
  rewrite Hl. apply IH. intros line n t Hin. apply H. by right.
Qed.

(** X5: a number whose entry exists is never given a second one, so the
    outline of a text followed by a copy of itself is the outline of the
    text. *)
Theorem toc_of_repeated_text content :
  extract_toc (content ++ [nl] ++ content) = extract_toc content.
Proof.
  unfold extract_toc, split_lines.
  change (content ++ [nl] ++ content) with (content ++ nl :: content).
  rewrite split_app_sep. unfold toc_loop. rewrite foldl_app.
  fold (toc_loop toc_initial (split nl content)).
  fold (toc_loop (toc_loop toc_initial (split nl content)) (split nl content)).
  rewrite toc_loop_again; [done|].
  intros line n t Hl Hc.
  pose proof (toc_loop_inv (split nl content) _ toc_initial_inv) as [Hids _].
  apply Hids. eapply toc_loop_complete; [apply toc_initial_inv | done..].
Qed.

(** ** Titles that start with ["http"] *)








(** ** The body loop as a whole *)

Lemma step_html_one st line rest :
  exists frags,
    html (step st line rest).1 = html st ++ frags /\ (length frags <= 1)%nat.
Proof.
  unfold step, emit.
  repeat match goal with
         | |- context [if ?b then _ else _] => destruct b
         | |- context [match heading_re ?s with _ => _ end] =>
             destruct (heading_re s) as [[? ?]|]
         | |- context [let '(_, _) := ?x in _] => destruct x as [[? ?] ?]
         | |- context [let '(_, _) := ?x in _] => destruct x as [? ?]
         end; cbn [html fst];
    first [ by eexists; split; [reflexivity | simpl; lia]
          | exists []; split; [by rewrite app_nil_r | simpl; lia] ].
Qed.

Lemma blocks_fragments ls : forall st,
  Forall (fun b => length b.2 <= 1)%nat (blocks st ls).
Proof.
  induction ls as [ls IH] using (induction_ltof1 _ (@length str)).
  unfold ltof in IH. intros st. destruct ls as [|line rest].
  - simp blocks. constructor.
  - rewrite blocks_cons. constructor.
    + cbn [snd]. destruct (step_html_one st line rest) as (frags & -> & Hlen).
      by rewrite drop_app_length.
    + apply IH. pose proof (step_length st line rest). simpl. lia.
Qed.

(** X6: the loop walks through the input once: its iterations consume
    non-empty runs of lines that, put end to end, are the input; each
    iteration appends at most one fragment, and the output is these fragments
    in order, joined by newlines.  So there are never more fragments than
    lines. *)
Theorem cursor_covers_input content :
  let bs := blocks initial (split_lines content) in
  concat (List.map fst bs) = split_lines content
  /\ Forall (fun b => b.1 <> [] /\ (length b.2 <= 1)%nat) bs
  /\ format_content_to_html content = join [nl] (concat (List.map snd bs))
  /\ (length (concat (List.map snd bs)) <= length (split_lines content))%nat.
Proof.
  cbv zeta.
  destruct (blocks_cover (split_lines content) initial) as (Hcat & Hne & Hout).
  pose proof (blocks_fragments (split_lines content) initial) as Hfr.
  split_and!.
  - done.
  - rewrite Forall_forall in Hne, Hfr. apply Forall_forall.
    intros b Hb. split; [by apply Hne | by apply Hfr].
  - unfold format_content_to_html. by rewrite Hout.
  - rewrite <- Hcat at 2. clear Hcat Hout.
    induction (blocks initial (split_lines content)) as [|b bs IH]; [done|].
    inversion Hne; subst. inversion Hfr; subst.
    cbn [List.map concat]. rewrite !length_app.
    assert (1 <= length b.1)%nat by (destruct b.1; [done | simpl; lia]).
    specialize (IH ltac:(done) ltac:(done)). lia.
Qed.

Lemma step_outside_fence st line rest :
  in_code_block st = false -> is_fence line = false ->
  in_code_block (step st line rest).1 = false
  /\ exists f, html (step st line rest).1 = html st ++ [f].
Proof.
  unfold is_fence, step, emit. intros Hst ->. rewrite Hst.
  repeat match goal with
         | |- context [if ?b then _ else _] => destruct b
         | |- context [match heading_re ?s with _ => _ end] =>
             destruct (heading_re s) as [[? ?]|]
         | |- context [let '(_, _) := ?x in _] => destruct x as [[? ?] ?]
         | |- context [let '(_, _) := ?x in _] => destruct x as [? ?]
         end; cbn [html in_code_block fst]; by eauto.
Qed.

Lemma blocks_fence_free ls : forall st,
  in_code_block st = false ->
  Forall (fun l => is_fence l = false) ls ->
  Forall (fun b => length b.2 = 1%nat) (blocks st ls).
Proof.
  induction ls as [ls IH] using (induction_ltof1 _ (@length str)).
  unfold ltof in IH. intros st Hst Hls. destruct ls as [|line rest].
  - simp blocks. constructor.
  - rewrite blocks_cons. inversion Hls as [|? ? Hline Hrest]; subst.
    destruct (step_outside_fence st line rest Hst Hline) as (Hst' & f & Hf).
    constructor.
    + cbn [snd]. by rewrite Hf, drop_app_length.
    + apply IH; [pose proof (step_length st line rest); simpl; lia | done |].
      destruct (step_consumes st line rest) as [more Hmore].
      injection Hmore as Hmore. rewrite Hmore in Hrest.
      by apply Forall_app in Hrest as [_ ?].
Qed.

(** X7: in a text without fence markers nothing is dropped: every iteration
    of the loop appends exactly one fragment for the lines it consumes. *)
Theorem fence_free_text_is_covered content :
  Forall (fun l => is_fence l = false) (split_lines content) ->
  let bs := blocks initial (split_lines content) in
  concat (List.map fst bs) = split_lines content
  /\ Forall (fun b => b.1 <> [] /\ length b.2 = 1%nat) bs
  /\ format_content_to_html content = join [nl] (concat (List.map snd bs)).
Proof.
  intros Hfree. cbv zeta.
  destruct (blocks_cover (split_lines content) initial) as (Hcat & Hne & Hout).
  pose proof (blocks_fence_free _ initial eq_refl Hfree) as Hone.
  split_and!; [done | | unfold format_content_to_html; by rewrite Hout].
  rewrite Forall_forall in Hne, Hone. apply Forall_forall.
  intros b Hb. split; [by apply Hne | by apply Hone].
Qed.

Lemma fence_free_text_is_covered_witness :
  let bs := blocks initial
              (split_lines (join [nl] [lit "1. Intro text"; lit "class A {";
                                       lit "}"; lit ""; lit "done"])) in
  concat (List.map fst bs)
  = split_lines (join [nl] [lit "1. Intro text"; lit "class A {";
                            lit "}"; lit ""; lit "done"])
  /\ Forall (fun b => b.1 <> [] /\ length b.2 = 1%nat) bs
  /\ format_content_to_html (join [nl] [lit "1. Intro text"; lit "class A {";
                                        lit "}"; lit ""; lit "done"])
     = join [nl] (concat (List.map snd bs)).
Proof.
  apply (fence_free_text_is_covered
           (join [nl] [lit "1. Intro text"; lit "class A {";
                       lit "}"; lit ""; lit "done"])).
  assert (Hlines : split_lines (join [nl] [lit "1. Intro text"; lit "class A {";
                                           lit "}"; lit ""; lit "done"])
                   = [lit "1. Intro text"; lit "class A {"; lit "}"; lit "";
                      lit "done"]) by (vm_compute; reflexivity).
  rewrite Hlines. repeat (constructor; [vm_compute; reflexivity|]). constructor.
Defined.

(** ** Indentation, blank lines and braces *)

(** The inner loop of the indentation rule takes the lines up to the first
    one that is neither indented nor blank; its [break] changes nothing. *)
Lemma collect_indented_extent block : forall after,
  Forall (fun l => indented_or_blank l = true) block ->
  (forall l a, after = l :: a -> indented_or_blank l = false) ->
  collect_indented (block ++ after) = (block, after).
Proof.
  unfold indented_or_blank.
  induction block as [|l block IH]; intros after Hblock Hafter.
  - destruct after as [|l a]; [done|]. simpl.
    by rewrite (Hafter l a eq_refl).
  - inversion Hblock as [|? ? Hl Hb]; subst. cbn [app collect_indented].
    rewrite Hl. specialize (IH after Hb Hafter).
    destruct (block ++ after) as [|next tl] eqn:E.
    + simpl in IH. by injection IH as <- <-.
    + rewrite <- negb_orb.
      destruct (is_indented next || is_blank next) eqn:Hnext; cbn [negb].
      * by rewrite IH.
      * destruct block as [|b block].
        -- simpl in E. subst after. done.
        -- inversion Hb; subst. injection E as <- _. congruence.
Qed.

(** X8: an indented line that is neither fence marker, heading nor start of
    a brace block opens a code block that runs over all following lines that
    are indented or blank and stops before the first other line; the
    fragment holds these lines, joined by newlines, without the white space
    at the end. *)
Theorem indented_block_extent st line block after :
  in_code_block st = false ->
  is_fence line = false ->
  heading_re (strip line) = None ->
  is_code_start (strip line) = false ->
  is_indented line = true ->
  Forall (fun l => indented_or_blank l = true) block ->
  (forall l a, after = l :: a -> indented_or_blank l = false) ->
  step st line (block ++ after)
  = ({| in_code_block := false; code_lines := code_lines st;
        html := html st
                ++ [ lit "<pre><code>"
                       ++ escape (rstrip (join [nl] (line :: block)))
                       ++ lit "</code></pre>" ] |}, after).
Proof.
  unfold is_fence. intros Hst Hf Hre Hcs Hind Hblock Hafter.
  unfold step. rewrite Hf, Hst, Hre, Hcs, Hind.
  rewrite (collect_indented_extent _ _ Hblock Hafter), (emit_outside _ _ Hst).
  reflexivity.
Qed.

Lemma indented_block_extent_witness :
  step initial (lit "    int x = 1;")
       ([lit "    int y = 2;"; lit ""; [tab] ++ lit "return;"; lit "  "]
          ++ [lit "After the block."; lit "    later"])
  = ({| in_code_block := false; code_lines := [];
        html := [ lit "<pre><code>    int x = 1;" ++ [nl]
                    ++ lit "    int y = 2;" ++ [nl] ++ [nl]
                    ++ [tab] ++ lit "return;</code></pre>" ] |},
     [lit "After the block."; lit "    later"]).
Proof.
  assert (Hblock : Forall (fun l => indented_or_blank l = true)
            [lit "    int y = 2;"; lit ""; [tab] ++ lit "return;"; lit "  "]).
  { repeat (constructor; [vm_compute; reflexivity|]). constructor. }
  assert (Hafter : forall l a,
            [lit "After the block."; lit "    later"] = l :: a ->
            indented_or_blank l = false).
  { intros l a [= <- _]. vm_compute. reflexivity. }
  rewrite (indented_block_extent initial (lit "    int x = 1;") _ _ eq_refl
             ltac:(vm_compute; reflexivity) ltac:(vm_compute; reflexivity)
             ltac:(vm_compute; reflexivity) ltac:(vm_compute; reflexivity)
             Hblock Hafter).
  vm_compute. reflexivity.
Defined.

Lemma blank_line_checks line :
  is_blank line = true ->
  is_fence line = false /\ heading_re (strip line) = None
  /\ is_code_start (strip line) = false.
Proof.
  unfold is_blank, is_fence. destruct (strip line); [|done]. by vm_compute.
Qed.

(** X9: a line of white space only gives a gap unless it starts with four
    spaces or a tab; then the indentation rule comes first, and the line
    opens a code block together with the indented or blank lines that
    follow. *)
Theorem blank_line_rendering st line rest :
  in_code_block st = false ->
  is_blank line = true ->
  step st line rest
  = if is_indented line
    then ({| in_code_block := false; code_lines := code_lines st;
             html := html st
                     ++ [ lit "<pre><code>"
                            ++ escape (rstrip (join [nl]
                                         (line :: (collect_indented rest).1)))
                            ++ lit "</code></pre>" ] |},
          (collect_indented rest).2)
    else ({| in_code_block := false; code_lines := code_lines st;
             html := html st
                     ++ [ lit "<div class=" ++ [dquote] ++ lit "gap"
                            ++ [dquote] ++ lit "></div>" ] |}, rest).
Proof.
  intros Hst Hblank.
  destruct (blank_line_checks line Hblank) as (Hf & Hre & Hcs).
  unfold is_fence in Hf. unfold step. rewrite Hf, Hst, Hre, Hcs, Hblank.
  destruct (is_indented line); [|by rewrite (emit_outside _ _ Hst)].
  destruct (collect_indented rest). by rewrite (emit_outside _ _ Hst).
Qed.

Lemma blank_line_rendering_witness :
  step initial (lit "  ") [lit "text"]
  = ({| in_code_block := false; code_lines := [];
        html := [ lit "<div class=" ++ [dquote] ++ lit "gap" ++ [dquote]
                    ++ lit "></div>" ] |}, [lit "text"])
  /\ step initial (lit "     ") [lit ""; lit "text"]
     = ({| in_code_block := false; code_lines := [];
           html := [ lit "<pre><code></code></pre>" ] |}, [lit "text"]).
Proof.
  split.
  - rewrite (blank_line_rendering initial (lit "  ") [lit "text"] eq_refl
               ltac:(vm_compute; reflexivity)).
    vm_compute. reflexivity.
  - rewrite (blank_line_rendering initial (lit "     ") [lit ""; lit "text"]
               eq_refl ltac:(vm_compute; reflexivity)).
    vm_compute. reflexivity.
Defined.

Lemma collect_braces_open rest : forall bc,
  stays_open bc rest = true ->
  (collect_braces bc rest).1.1 = rest /\ (collect_braces bc rest).2 = [].
Proof.
  induction rest as [|l rest IH]; intros bc H; [done|].
  cbn [stays_open] in H. apply andb_prop in H as [Hbc H].
  apply Z.ltb_lt in Hbc. rewrite collect_braces_cons by done. cbn [fst snd].
  destruct (IH _ H) as [-> ->]. done.
Qed.

(** X10: a line that starts the brace rule and opens more braces than it
    closes, followed by lines over which the balance never comes back to
    zero, takes all the remaining lines of the input into one code fragment,
    whatever they are. *)
Theorem open_brace_swallows_rest st line rest :
  in_code_block st = false ->
  is_fence line = false ->
  heading_re (strip line) = None ->
  is_code_start (strip line) = true ->
  rest <> [] ->
  stays_open (brace_delta line) rest = true ->
  step st line rest
  = ({| in_code_block := false; code_lines := code_lines st;
        html := html st
                ++ [ lit "<pre><code>" ++ escape (join [nl] (line :: rest))
                       ++ lit "</code></pre>" ] |}, []).
Proof.
  intros Hst Hf Hre Hcs Hne Hopen.
  rewrite step_code_start by done.
  assert (Hpos : (0 < brace_delta line)%Z).
  { destruct rest as [|l r]; [done|]. cbn [stays_open] in Hopen.
    apply andb_prop in Hopen as [H _]. by apply Z.ltb_lt. }
  assert (Hblock : (brace_block line rest).1.1 = line :: rest
                   /\ (brace_block line rest).2 = []).
  { unfold brace_block.
    assert (Hz : (brace_delta line =? 0)%Z = false) by (apply Z.eqb_neq; lia).
    destruct (collect_braces_open rest _ Hopen) as [H1 H2].
    destruct rest as [|next rest']; [done|]. rewrite Hz. cbn [andb].
    destruct (collect_braces _ _) as [[more b] r]. cbn [fst snd] in *.
    by subst. }
  destruct Hblock as [-> ->].
  destruct rest as [|l r]; [done|]. rewrite (emit_outside _ _ Hst).
  reflexivity.
Qed.

Lemma open_brace_swallows_rest_witness :
  step initial (lit "public class A {")
       [lit "  void f() {"; lit "  }"; lit "2. Next Section"; lit "```"]
  = ({| in_code_block := false; code_lines := [];
        html := [ lit "<pre><code>public class A {" ++ [nl]
                    ++ lit "  void f() {" ++ [nl] ++ lit "  }" ++ [nl]
                    ++ lit "2. Next Section" ++ [nl]
                    ++ lit "```</code></pre>" ] |}, []).
Proof.
  rewrite (open_brace_swallows_rest initial (lit "public class A {")
             [lit "  void f() {"; lit "  }"; lit "2. Next Section"; lit "```"]
             eq_refl ltac:(vm_compute; reflexivity)
             ltac:(vm_compute; reflexivity) ltac:(vm_compute; reflexivity)
             ltac:(discriminate) ltac:(vm_compute; reflexivity)).
  vm_compute. reflexivity.
Defined.

(** X11: a line that starts the brace rule with as many closing as opening
    braces, and is not followed by a line that begins with an opening brace,
    is a code fragment of its own: an import, an annotation or a one-line
    declaration is never merged with the text after it. *)
Theorem balanced_code_line_stands_alone st line rest :
  in_code_block st = false ->
  is_fence line = false ->
  heading_re (strip line) = None ->
  is_code_start (strip line) = true ->
  brace_delta line = 0%Z ->
  (forall next tl, rest = next :: tl ->
                   is_blank next = true \/ first_is lbrace (strip next) = false) ->
  step st line rest
  = ({| in_code_block := false; code_lines := code_lines st;
        html := html st
                ++ [ lit "<pre><code>" ++ escape line ++ lit "</code></pre>" ] |},
     rest).
Proof.
  intros Hst Hf Hre Hcs Hbal Hnext.
  rewrite step_code_start by done.
  assert (Hblock : brace_block line rest = ([line], 0%Z, rest)).
  { unfold brace_block. rewrite Hbal. destruct rest as [|next tl]; [done|].
    assert (Hc : (0 =? 0)%Z && negb (is_blank next)
                 && first_is lbrace (strip next) = false).
    { destruct (Hnext next tl eq_refl) as [-> | ->]; [done|].
      by rewrite andb_false_r. }
    rewrite Hc. by rewrite collect_braces_stop. }
  rewrite Hblock, (emit_outside _ _ Hst). reflexivity.
Qed.

Lemma balanced_code_line_stands_alone_witness :
  step initial (lit "private List<String> names;") [lit "The list type."]
  = ({| in_code_block := false; code_lines := [];
        html := [ lit "<pre><code>private List&lt;String&gt; names;</code></pre>" ] |},
     [lit "The list type."]).
Proof.
  assert (Hnext : forall next tl,
            [lit "The list type."] = next :: tl ->
            is_blank next = true \/ first_is lbrace (strip next) = false).
  { intros next tl [= <- _]. right. vm_compute. reflexivity. }
  rewrite (balanced_code_line_stands_alone initial
             (lit "private List<String> names;") [lit "The list type."]
             eq_refl ltac:(vm_compute; reflexivity)
             ltac:(vm_compute; reflexivity) ltac:(vm_compute; reflexivity)
             ltac:(vm_compute; reflexivity) Hnext).
  vm_compute. reflexivity.
Defined.

(** X12: when the body renders a line as a heading, the level is 1, 2 or 3,
    the number of runs of digits in the number, so the element is [h2], [h3]
    or [h4]. *)
Theorem body_heading_level st line rest number title :
  in_code_block st = false ->
  heading_re (strip line) = Some (number, title) ->
  title_ok title = true ->
  exists level,
    (1 <= level <= 3)%nat
    /\ level = length (split dot number)
    /\ step st line rest
       = ({| in_code_block := false; code_lines := code_lines st;
             html := html st ++ [heading_fragment level number (strip line)] |},
          rest)
    /\ startswith (lit "<h" ++ str_of_nat (level + 1) ++ lit " id=")
                  (heading_fragment level number (strip line)) = true
    /\ str_of_nat (level + 1) ∈ [lit "2"; lit "3"; lit "4"].
Proof.
  intros Hst Hre Hok.
  destruct (heading_re_groups _ _ _ Hre) as (nums & _ & _ & Hpath & _).
  pose proof (numeric_path_level _ _ Hpath) as Hsplit.
  destruct Hpath as (Hlen & _ & _).
  exists (length (split dot number)). rewrite Hsplit.
  split_and!; [lia | lia | done | | |].
  - by rewrite (step_heading _ _ _ _ _ Hst Hre), Hok, Hsplit,
       (emit_outside _ _ Hst).
  - destruct nums as [|? [|? [|? [|? ?]]]]; simpl in Hlen; try lia;
      reflexivity.
  - destruct nums as [|? [|? [|? [|? ?]]]]; simpl in Hlen; try lia.
    + by left.
    + right. by left.
    + right. right. by left.
Qed.

Lemma body_heading_level_witness :
  exists level,
    (1 <= level <= 3)%nat
    /\ level = length (split dot (lit "1.2.3"))
    /\ step initial (lit "1.2.3. Deep section") []
       = ({| in_code_block := false; code_lines := code_lines initial;
             html := html initial
                     ++ [heading_fragment level (lit "1.2.3")
                           (strip (lit "1.2.3. Deep section"))] |}, [])
    /\ startswith (lit "<h" ++ str_of_nat (level + 1) ++ lit " id=")
                  (heading_fragment level (lit "1.2.3")
                     (strip (lit "1.2.3. Deep section"))) = true
    /\ str_of_nat (level + 1) ∈ [lit "2"; lit "3"; lit "4"].
Proof.
  apply (body_heading_level initial (lit "1.2.3. Deep section") []
           (lit "1.2.3") (lit "Deep section")).
  - reflexivity.
  - vm_compute. reflexivity.
  - vm_compute. reflexivity.
Defined.

(** ** Escaping, rejected titles and headings inside fences *)

(** X13: escaped text contains no angle bracket and no quote, so the text
    that [format_content_to_html] and [generate_toc_html] put between their
    tags cannot open or close a tag or an attribute. *)
Theorem escape_leaves_no_markup s x :
  x ∈ escape s ->
  x <> lt_sign /\ x <> gt_sign /\ x <> dquote /\ x <> squote.
Proof.
  rewrite escape_flat_map. intros (c & _ & Hx)%list_elem_of_In%in_flat_map.
  eapply escape_char_safe. apply list_elem_of_In. exact Hx.
Qed.

Lemma escape_leaves_no_markup_witness :
  amp <> lt_sign /\ amp <> gt_sign /\ amp <> dquote /\ amp <> squote.
Proof.
  apply (escape_leaves_no_markup (lit "<a href='x'>") amp).
  assert (H : escape (lit "<a href='x'>") = lit "&lt;a href=&#x27;x&#x27;&gt;")
    by (vm_compute; reflexivity).
  rewrite H. left.
Defined.

(** X14: a line that matches the pattern but whose title is shorter than
    four characters or holds a denylisted keyword never adds an entry to the
    outline, and the body renders it as a paragraph of the line as it was,
    untrimmed. *)
Theorem rejected_title_is_paragraph line number title :
  heading_re (strip line) = Some (number, title) ->
  title_ok title = false ->
  (forall tst, toc_line tst line = tst)
  /\ forall st rest,
       in_code_block st = false ->
       step st line rest
       = ({| in_code_block := false; code_lines := code_lines st;
             html := html st ++ [ lit "<p>" ++ escape line ++ lit "</p>" ] |},
          rest).
Proof.
  intros Hre Hok. split.
  - intros tst. unfold toc_line. rewrite Hre.
    rewrite (heading_title_stripped _ _ _ Hre). unfold line_ok.
    by rewrite Hok.
  - intros st rest Hst.
    by rewrite (step_heading _ _ _ _ _ Hst Hre), Hok, (emit_outside _ _ Hst).
Qed.

Lemma rejected_title_is_paragraph_witness :
  extract_toc (lit "  3. Nginx " ++ [0x914D; 0x7F6E]) = []
  /\ step initial (lit "  3. Nginx " ++ [0x914D; 0x7F6E]) []
     = ({| in_code_block := false; code_lines := [];
           html := [ lit "<p>  3. Nginx " ++ [0x914D; 0x7F6E] ++ lit "</p>" ] |},
        []).
Proof.
  assert (Hre : heading_re (strip (lit "  3. Nginx " ++ [0x914D; 0x7F6E]))
                = Some (lit "3", lit "Nginx " ++ [0x914D; 0x7F6E]))
    by (vm_compute; reflexivity).
  assert (Hok : title_ok (lit "Nginx " ++ [0x914D; 0x7F6E]) = false)
    by (vm_compute; reflexivity).
  pose proof (rejected_title_is_paragraph _ _ _ Hre Hok) as [Htoc Hbody].
  assert (Hlines : split_lines (lit "  3. Nginx " ++ [0x914D; 0x7F6E])
                   = [lit "  3. Nginx " ++ [0x914D; 0x7F6E]])
    by (vm_compute; reflexivity).
  split.
  - unfold extract_toc. rewrite Hlines. cbn [toc_loop foldl]. by rewrite Htoc.
  - rewrite (Hbody initial [] eq_refl). vm_compute. reflexivity.
Defined.

(** X15: [extract_toc] does not know about fences: a line inside a fenced
    block that passes its checks with a new number gets an entry, while the
    body only buffers the line and emits no heading for it, so that the
    entry's link has no target. *)
Theorem heading_inside_fence_is_listed tst st line rest number title :
  heading_re (strip line) = Some (number, title) ->
  title_ok title = true ->
  startswith (lit "http") title = false ->
  number ∉ toc_ids tst ->
  in_code_block st = true ->
  toc (toc_line tst line)
  = toc tst ++ [ {| id := toc_id number; number := number; title := title;
                    level := length (split dot number) |} ]
  /\ step st line rest
     = ({| in_code_block := true; code_lines := code_lines st ++ [line];
           html := html st |}, rest).
Proof.
  intros Hre Hok Hhttp Hnew Hst. split.
  - rewrite toc_line_candidate.
    rewrite (proj2 (candidate_spec line number title)) by done.
    by rewrite bool_decide_eq_false_2.
  - apply step_fence_body; [|done]. by eapply heading_not_fence.
Qed.

Lemma heading_inside_fence_is_listed_witness :
  List.map id (extract_toc (join [nl] [lit "```"; lit "1. Not a heading";
                                       lit "```"]))
  = [lit "h-1"]
  /\ format_content_to_html (join [nl] [lit "```"; lit "1. Not a heading";
                                        lit "```"])
     = pre_fragment (lit "1. Not a heading").
Proof.
  assert (Hre : heading_re (strip (lit "1. Not a heading"))
                = Some (lit "1", lit "Not a heading"))
    by (vm_compute; reflexivity).
  assert (Hnew : lit "1" ∉ toc_ids (toc_line toc_initial (lit "```"))).
  { intros H. apply (proj2 (bool_decide_eq_true _)) in H.
    by vm_compute in H. }
  pose proof (heading_inside_fence_is_listed
                (toc_line toc_initial (lit "```"))
                {| in_code_block := true; code_lines := []; html := [] |}
                (lit "1. Not a heading") [lit "```"] (lit "1")
                (lit "Not a heading") Hre
                ltac:(vm_compute; reflexivity) ltac:(vm_compute; reflexivity)
                Hnew eq_refl) as [Htoc Hstep].
  assert (Hlines : split_lines (join [nl] [lit "```"; lit "1. Not a heading";
                                           lit "```"])
                   = [lit "```"; lit "1. Not a heading"; lit "```"])
    by (vm_compute; reflexivity).
  split.
  - unfold extract_toc. rewrite Hlines. cbn [toc_loop foldl].
    assert (Hclose : forall s, toc_line s (lit "```") = s)
      by (intros s; reflexivity).
    rewrite (Hclose (toc_line _ (lit "1. Not a heading"))), Htoc.
    vm_compute. reflexivity.
  - unfold format_content_to_html. rewrite Hlines.
    rewrite loop_cons. rewrite step_fence_open by (by vm_compute).
    cbn [fst snd]. change (html initial) with (@nil str).
    rewrite loop_cons, Hstep. vm_compute. reflexivity.
Defined.

(** ** [generate_toc_html] *)

Lemma foldl_links items : forall acc,
  foldl (fun html item => html ++ toc_link item) acc items
  = acc ++ flat_map toc_link items.
Proof.
  induction items as [|i items IH]; intros acc; cbn [foldl flat_map].
  - by rewrite app_nil_r.
  - by rewrite IH, (assoc_L (++)).
Qed.

(** X16: for a list of entries that is not empty, [generate_toc_html]
    returns the opening tag of the tree, the links of the entries one after
    the other in the order of the list, and the closing tag; so the tree of
    two lists put together holds the links of the first, then those of the
    second. *)
Theorem toc_html_links items more :
  items <> [] ->
  generate_toc_html items
  = lit "<div class=" ++ [dquote] ++ lit "toc-tree" ++ [dquote] ++ lit ">"
      ++ flat_map toc_link items ++ lit "</div>"
  /\ generate_toc_html (items ++ more)
     = lit "<div class=" ++ [dquote] ++ lit "toc-tree" ++ [dquote] ++ lit ">"
         ++ flat_map toc_link items ++ flat_map toc_link more ++ lit "</div>".
Proof.
  intros Hne. destruct items as [|i items]; [done|]. split.
  - unfold generate_toc_html. rewrite foldl_links.
    by rewrite <- !(assoc_L (++)).
  - cbn [app]. unfold generate_toc_html. rewrite foldl_links.
    change (i :: items ++ more) with ((i :: items) ++ more).
    rewrite flat_map_app. by rewrite <- !(assoc_L (++)).
Qed.

Lemma toc_html_links_witness :
  generate_toc_html (extract_toc (lit "1. Overview"))
  = lit "<div class=" ++ [dquote] ++ lit "toc-tree" ++ [dquote] ++ lit ">"
      ++ flat_map toc_link (extract_toc (lit "1. Overview")) ++ lit "</div>".
Proof.
  apply (toc_html_links (extract_toc (lit "1. Overview")) []).
  assert (H : extract_toc (lit "1. Overview")
              = [ {| id := lit "h-1"; number := lit "1";
                     title := lit "Overview"; level := 1 |} ])
    by (vm_compute; reflexivity).
  rewrite H. discriminate.
Defined.
